(** * Aisummary: the import page and the dashboard helpers

    A shallow embedding of three pieces of the front end:
    - [getContrastingTextColor] (Dashboard.tsx and the note viewer),
    - [handleToggleFavorite] (Dashboard.tsx), over the query cache,
    - the import page: [handleFileSelect], [handleDrop], [removeFile],
      [processSingleFile] and [handleImport].

    Conventions.
    - A JavaScript string is a Rocq [string]; each character stands for one
      UTF-16 code unit, and the built-ins below are given on the code units
      0..255.
    - A JavaScript object used as a dictionary is a [gmap] from its keys.
    - A React handler is a closure of one render: the state values it names
      ([files], [fileProgress], [user], [authLoading]) are the constants of
      that render, gathered in [Render]; the setters act on the live state.
    - Calls into other modules and packages are fields of [Services]; a call
      that can reject returns a [Result].  Notifications, navigation and cache
      invalidation are recorded in a log and return normally; [toast.warn],
      which the notification package does not have, throws. *)

From Stdlib Require Import PrimFloat Uint63 ZArith String Ascii List.
From stdpp Require Import gmap strings list pretty.

Set Warnings "-inexact-float".
Open Scope string_scope.

(** ** JavaScript built-ins used by the sources *)

Module Js.

(** A thrown value.  [Error message] is a value whose properties can be read,
    an [Error] object or any other object or primitive; [message] is [None]
    when it has no such property.  [Null] and [Undefined] are the two values
    of which no property can be read. *)
Inductive JsError : Type :=
| Error (message : option string)
| Null
| Undefined.

Inductive Result (A : Type) : Type :=
| Ok (a : A)
| Throw (e : JsError).
Arguments Ok {A} a.
Arguments Throw {A} e.

Definition newError (msg : string) : JsError := Error (Some msg).

(** The string ["\n"]. *)
Definition LF : string := String (ascii_of_nat 10) EmptyString.

(** [x || d] on strings: the empty string is falsy. *)
Definition orElse (x d : string) : string :=
  if String.eqb x "" then d else x.

(** Whether [e] is [null] or [undefined]. *)
Definition isNullish (e : JsError) : bool :=
  match e with
  | Error _ => false
  | Null | Undefined => true
  end.

(** The TypeError that reading [e.message] throws when [e] is [null] or
    [undefined]. *)
Definition cannotReadMessage (e : JsError) : JsError :=
  match e with
  | Null => newError "Cannot read properties of null (reading 'message')"
  | _ => newError "Cannot read properties of undefined (reading 'message')"
  end.

(** [err.message || 'Unknown error'], for an [err] that is not [null] or
    [undefined]. *)
Definition messageOr (e : JsError) (d : string) : string :=
  match e with
  | Error (Some m) => orElse m d
  | _ => d
  end.

(** Whether a call rejected with [null] or [undefined]. *)
Definition rejectsNullish {A : Type} (r : Result A) : bool :=
  match r with
  | Ok _ => false
  | Throw e => isNullish e
  end.

(** WhiteSpace and LineTerminator code units below 256:
    TAB, LF, VT, FF, CR, SP and NBSP. *)
Definition isWhiteSpace (a : ascii) : bool :=
  let c := N_of_ascii a in
  ((c =? 9) || (c =? 10) || (c =? 11) || (c =? 12) || (c =? 13)
   || (c =? 32) || (c =? 160))%N.

Fixpoint trimStart (s : string) : string :=
  match s with
  | EmptyString => EmptyString
  | String a s' => if isWhiteSpace a then trimStart s' else s
  end.

Fixpoint trimEnd (s : string) : string :=
  match s with
  | EmptyString => EmptyString
  | String a s' =>
      match trimEnd s' with
      | EmptyString => if isWhiteSpace a then EmptyString else String a EmptyString
      | t => String a t
      end
  end.

(** [s.trim()] *)
Definition trim (s : string) : string := trimEnd (trimStart s).

(** One code unit of [s.toLowerCase()]: A-Z and the Latin-1 capitals
    (192..222 without the multiplication sign).  On the code units 0..255
    the result has the length of the string; above them it need not (the
    capital I with a dot, U+0130, becomes two code units), and such strings
    are outside this embedding. *)
Definition lowerChar (a : ascii) : ascii :=
  let c := N_of_ascii a in
  if (((65 <=? c) && (c <=? 90))
      || ((192 <=? c) && (c <=? 222) && negb (c =? 215)))%N
  then ascii_of_N (c + 32)
  else a.

Fixpoint toLowerCase (s : string) : string :=
  match s with
  | EmptyString => EmptyString
  | String a s' => String (lowerChar a) (toLowerCase s')
  end.

(** [s.split(sep)] for a one-character separator; never an empty array. *)
Fixpoint split (sep : ascii) (s : string) : list string :=
  match s with
  | EmptyString => [EmptyString]
  | String a s' =>
      if Ascii.eqb a sep then EmptyString :: split sep s'
      else match split sep s' with
           | h :: t => String a h :: t
           | [] => [String a EmptyString]
           end
  end.

(** [s.lastIndexOf(c)] for a one-character [c]; -1 when absent. *)
Fixpoint lastIndexOf (c : ascii) (s : string) : Z :=
  match s with
  | EmptyString => (-1)%Z
  | String a s' =>
      let r := lastIndexOf c s' in
      if (0 <=? r)%Z then (1 + r)%Z
      else if Ascii.eqb a c then 0%Z else (-1)%Z
  end.

(** [s.substring(start, end)]: both ends clamped to [0, length], swapped when
    out of order. *)
Definition substring (s : string) (start end_ : Z) : string :=
  let len := Z.of_nat (String.length s) in
  let a := Z.min (Z.max start 0) len in
  let b := Z.min (Z.max end_ 0) len in
  let lo := Z.min a b in
  let hi := Z.max a b in
  String.substring (Z.to_nat lo) (Z.to_nat (hi - lo)) s.

(** [s.slice(start, end)]: negative indices count from the end. *)
Definition slice (s : string) (start end_ : Z) : string :=
  let len := Z.of_nat (String.length s) in
  let from := if (start <? 0)%Z then Z.max (len + start) 0 else Z.min start len in
  let to := if (end_ <? 0)%Z then Z.max (len + end_) 0 else Z.min end_ len in
  String.substring (Z.to_nat from) (Z.to_nat (Z.max (to - from) 0)) s.

(** [arr.join(sep)] on an array of strings. *)
Fixpoint join (sep : string) (l : list string) : string :=
  match l with
  | [] => EmptyString
  | [x] => x
  | x :: rest => x ++ sep ++ join sep rest
  end.

(** [arr.includes(x)] on an array of strings. *)
Definition includes (l : list string) (x : string) : bool :=
  existsb (String.eqb x) l.

Definition hexDigit (a : ascii) : option N :=
  let c := N_of_ascii a in
  if ((48 <=? c) && (c <=? 57))%N then Some (c - 48)%N
  else if ((97 <=? c) && (c <=? 102))%N then Some (c - 87)%N
  else if ((65 <=? c) && (c <=? 70))%N then Some (c - 55)%N
  else None.

(** The value of the longest prefix of hexadecimal digits; [acc] is [None]
    until a digit has been read. *)
Fixpoint hexPrefix (s : string) (acc : option N) : option N :=
  match s with
  | EmptyString => acc
  | String a s' =>
      match hexDigit a with
      | Some d => hexPrefix s' (Some (16 * default 0 acc + d)%N)
      | None => acc
      end
  end.

(** [parseInt(s, 16)]: leading white space, an optional sign, an optional
    [0x] or [0X], then the longest run of digits; NaN when there is none.
    The conversion to a double is exact below 2^53 (the callers pass two
    characters). *)
Definition parseInt16 (s : string) : float :=
  let s0 := trimStart s in
  let '(neg, s1) :=
    match s0 with
    | String "-" t => (true, t)
    | String "+" t => (false, t)
    | _ => (false, s0)
    end in
  let s2 :=
    match s1 with
    | String "0" (String x t) =>
        if (Ascii.eqb x "x" || Ascii.eqb x "X")%bool then t else s1
    | _ => s1
    end in
  match hexPrefix s2 None with
  | None => PrimFloat.nan
  | Some n =>
      let v := PrimFloat.of_uint63 (Uint63.of_Z (Z.of_N n)) in
      if neg then PrimFloat.opp v else v
  end.

(** [s] with the letters A-Z replaced by a-z and every other code unit
    kept. *)
Definition asciiLowerChar (a : ascii) : ascii :=
  let c := N_of_ascii a in
  if ((65 <=? c) && (c <=? 90))%N then ascii_of_N (c + 32) else a.

Fixpoint asciiLowerCase (s : string) : string :=
  match s with
  | EmptyString => EmptyString
  | String a s' => String (asciiLowerChar a) (asciiLowerCase s')
  end.

(** Whether the code unit [c] occurs in [s]. *)
Fixpoint contains (c : ascii) (s : string) : bool :=
  match s with
  | EmptyString => false
  | String a s' => Ascii.eqb a c || contains c s'
  end.

(** [s.includes(needle)] on strings: [needle] occurs in [s] as a substring. *)
Fixpoint strIncludes (s needle : string) : bool :=
  String.prefix needle s
  || match s with
     | EmptyString => false
     | String _ s' => strIncludes s' needle
     end.

(** The one-character string of the double quote. *)
Definition dquote : string := String (ascii_of_nat 34) EmptyString.

End Js.

(** ** Effects visible outside the components *)

Module Ui.

(** Notifications ([toast] of sonner; a call of [toast.warn] shows nothing,
    see [toastWarn]), navigation ([navigate] with [replace: true]), query
    invalidation, console output, and the calls to the services of the
    application. *)
Inductive Event : Type :=
| toast_success (msg : string)
| toast_error (msg : string)
| toast_info (msg : string)
| navigate (to : string)
| invalidateQueries (queryKey : string)
| console_log (msg : string)
| console_error (msg : string)
| call_createNote (title content status : string) (is_favorite is_archived : bool)
| call_processNoteWithAI (noteId : string)
| call_toggleFavorite (noteId : string) (currentIsFavorite : bool).

End Ui.

(** ** Dashboard.tsx *)

Module Dashboard.
Import Js.

(** The body of the [try] block of [getContrastingTextColor]; [parseInt],
    [slice] and the arithmetic on numbers do not throw. *)
Definition contrastOf (hexColor : string) : Result string :=
  let r := parseInt16 (slice hexColor 1 3) in
  let g := parseInt16 (slice hexColor 3 5) in
  let b := parseInt16 (slice hexColor 5 7) in
  let luminance := ((0.299 * r + 0.587 * g + 0.114 * b) / 255)%float in
  Ok (if PrimFloat.ltb 0.5%float luminance then "#000000" else "#FFFFFF").

(** [!hexColor || hexColor.length !== 7 || hexColor[0] !== '#'] *)
Definition notHexColor (hexColor : string) : bool :=
  String.eqb hexColor ""
  || negb (Nat.eqb (String.length hexColor) 7)
  || negb (match String.get 0 hexColor with
           | Some c => Ascii.eqb c "#"
           | None => false
           end).

Definition getContrastingTextColor (hexColor : string) : string :=
  if notHexColor hexColor then "#000000"
  else match contrastOf hexColor with
       | Ok v => v
       | Throw _ => "#000000"
       end.

(** The fields of a cached note that the handlers read or write. *)
Record Note := {
  id : string;
  title : string;
  content : string;
  is_favorite : bool
}.

(** The two query caches the handler touches; [None] when a query has no
    data yet. *)
Record QueryCache := {
  notes : option (list Note);
  favorite_notes : option (list Note)
}.

Record State := {
  cache : QueryCache;
  log : list Ui.Event
}.

(** [{ ...note, is_favorite: v }] *)
Definition withFavorite (v : bool) (note : Note) : Note :=
  {| id := id note; title := title note; content := content note;
     is_favorite := v |}.

(** [oldNotes?.map(note => note.id === noteId ? {...note, is_favorite: v} : note)] *)
Definition markNotes (noteId : string) (v : bool) (c : QueryCache) : QueryCache :=
  {| notes :=
       option_map
         (map (fun note => if String.eqb (id note) noteId
                           then withFavorite v note else note))
         (notes c);
     favorite_notes := favorite_notes c |}.

(** [oldFavNotes.filter(note => note.id !== noteId)] *)
Definition dropFavorite (noteId : string) (oldFavNotes : list Note) : list Note :=
  List.filter (fun note => negb (String.eqb (id note) noteId)) oldFavNotes.

(** [queryClient.getQueryData(['notes'])?.find(note => note.id === noteId)],
    then [[...oldFavNotes, { ...noteToAdd, is_favorite: true }]] when found. *)
Definition addFavorite (noteId : string) (c : QueryCache)
    (oldFavNotes : list Note) : list Note :=
  match option_map (List.find (fun note => String.eqb (id note) noteId)) (notes c) with
  | Some (Some noteToAdd) => (oldFavNotes ++ [withFavorite true noteToAdd])%list
  | _ => oldFavNotes
  end.

(** The updater of ['favorite-notes']: [remove] tells whether the note leaves
    the collection or joins it; an absent cache stays absent. *)
Definition updateFavorites (noteId : string) (remove : bool) (c : QueryCache)
    : QueryCache :=
  {| notes := notes c;
     favorite_notes :=
       match favorite_notes c with
       | None => None
       | Some oldFavNotes =>
           Some (if remove then dropFavorite noteId oldFavNotes
                 else addFavorite noteId c oldFavNotes)
       end |}.

(** The two [setQueryData] calls before the request. *)
Definition optimisticUpdate (noteId : string) (currentIsFavorite : bool)
    (c : QueryCache) : QueryCache :=
  updateFavorites noteId currentIsFavorite
    (markNotes noteId (negb currentIsFavorite) c).

(** The two [setQueryData] calls of the [else] branch. *)
Definition rollback (noteId : string) (currentIsFavorite : bool)
    (c : QueryCache) : QueryCache :=
  updateFavorites noteId (negb currentIsFavorite)
    (markNotes noteId currentIsFavorite c).

(** No cached note has this id. *)
Definition unknownIn (noteId : string) (l : option (list Note)) : Prop :=
  forall cached note, l = Some cached -> In note cached -> id note <> noteId.

(** [handleToggleFavorite]; [apiToggleFavorite] is the request of
    notesService, which answers [true], [false], or rejects.  A rejection
    leaves the handler at the [await]. *)
Definition handleToggleFavorite
    (apiToggleFavorite : string -> bool -> Result bool)
    (noteId : string) (currentIsFavorite : bool) (s : State)
    : Result unit * State :=
  let c1 := optimisticUpdate noteId currentIsFavorite (cache s) in
  let log1 := (log s ++ [Ui.call_toggleFavorite noteId currentIsFavorite])%list in
  match apiToggleFavorite noteId currentIsFavorite with
  | Throw e => (Throw e, {| cache := c1; log := log1 |})
  | Ok true =>
      (Ok tt,
       {| cache := c1;
          log := (log1 ++
            [Ui.invalidateQueries "notes";
             Ui.invalidateQueries "favorite-notes";
             Ui.toast_success
               ("Document " ++
                (if currentIsFavorite then "unfavorited" else "favorited") ++ ".")])%list |})
  | Ok false =>
      (Ok tt,
       {| cache := rollback noteId currentIsFavorite c1;
          log := (log1 ++ [Ui.toast_error "Failed to update favorite status."])%list |})
  end.

End Dashboard.

(** ** The import page *)

Module ImportPage.
Import Js Ui.

Inductive Status : Type := pending | processing | completed | error.

(** An entry of [fileProgress]. *)
Record FileStatus := {
  status : Status;
  message : option string
}.

(** A browser [File]: its name, its media type and its bytes. *)
Record File := {
  name : string;
  type : string;
  data : string
}.

(** The user of the auth context. *)
Record User := { user_id : string }.

(** pdfjs-dist: a document gives its page count and its pages, a page gives
    its text content, whose items carry [str]. *)
Record TextItem := { str : string }.
Record TextContent := { items : list TextItem }.
Record PDFPageProxy := { getTextContent : Result TextContent }.
Record PDFDocumentProxy := {
  numPages : nat;
  getPage : nat -> Result PDFPageProxy
}.

(** What a [FileReader] reports after [readAsDataURL]: [onload] with
    [e.target?.result], or [onerror] with an event, kept as the text it has
    inside a template literal. *)
Inductive FileReaderOutcome : Type :=
| onload (result : option string)
| onerror (shown : string).

(** The argument of [createNote] and the part of its answer that is read. *)
Record NewNote := {
  title : string;
  content : string;
  note_status : string;
  is_favorite : bool;
  is_archived : bool
}.
Record NoteData := { id : string }.

(** The collaborators of the page.  Reading and parsing a file depends on the
    file alone; the persistence and AI services act on a backend [W], which
    also holds the live session. *)
Class Services (W : Type) := {
  session : W -> option User;
  file_text : File -> Result string;
  file_arrayBuffer : File -> Result string;
  getDocument : string -> Result PDFDocumentProxy;
  extractRawText : string -> Result string;
  readAsDataURL : File -> FileReaderOutcome;
  performOCRWithGemini : string -> string -> Result string;
  createNote : NewNote -> W -> Result (option NoteData) * W;
  processNoteWithAI : string -> W -> Result unit * W
}.

(** The live state of the page, the backend, and the effects so far. *)
Record Sys (W : Type) := {
  files : list File;
  fileProgress : gmap string FileStatus;
  dragging : bool;
  isProcessing : bool;
  world : W;
  log : list Event
}.
Arguments files {W} s.
Arguments fileProgress {W} s.
Arguments dragging {W} s.
Arguments isProcessing {W} s.
Arguments world {W} s.
Arguments log {W} s.

(** What the handlers of one render see of the state and of the auth
    context. *)
Record Render := {
  r_files : list File;
  r_fileProgress : gmap string FileStatus;
  r_user : option User;
  r_authLoading : bool
}.

Section Page.
Context {W : Type} `{Services W}.

(** *** Setters and effects *)

Definition setFiles (f : list File -> list File) (s : Sys W) : Sys W :=
  {| files := f (files s); fileProgress := fileProgress s;
     dragging := dragging s; isProcessing := isProcessing s;
     world := world s; log := log s |}.

Definition setFileProgress
    (f : gmap string FileStatus -> gmap string FileStatus) (s : Sys W) : Sys W :=
  {| files := files s; fileProgress := f (fileProgress s);
     dragging := dragging s; isProcessing := isProcessing s;
     world := world s; log := log s |}.

Definition setDragging (b : bool) (s : Sys W) : Sys W :=
  {| files := files s; fileProgress := fileProgress s;
     dragging := b; isProcessing := isProcessing s;
     world := world s; log := log s |}.

Definition setIsProcessing (b : bool) (s : Sys W) : Sys W :=
  {| files := files s; fileProgress := fileProgress s;
     dragging := dragging s; isProcessing := b;
     world := world s; log := log s |}.

Definition setWorld (w : W) (s : Sys W) : Sys W :=
  {| files := files s; fileProgress := fileProgress s;
     dragging := dragging s; isProcessing := isProcessing s;
     world := w; log := log s |}.

Definition emit (e : Event) (s : Sys W) : Sys W :=
  {| files := files s; fileProgress := fileProgress s;
     dragging := dragging s; isProcessing := isProcessing s;
     world := world s; log := (log s ++ [e])%list |}.

(** The snapshot a render takes of the live state. *)
Definition render (authLoading : bool) (s : Sys W) : Render :=
  {| r_files := files s; r_fileProgress := fileProgress s;
     r_user := session (world s); r_authLoading := authLoading |}.

(** *** Selecting, dropping and removing files *)

Definition pendingStatus : FileStatus :=
  {| status := pending; message := None |}.

(** [acc[file.name] = { status: 'pending' }] on the object literal [acc]: an
    assignment.  Under the name [__proto__] it goes to the setter of
    [Object.prototype], which changes the prototype of [acc] and adds no key;
    the spread that follows copies own keys only. *)
Definition assignPending (acc : gmap string FileStatus) (file : File)
    : gmap string FileStatus :=
  if String.eqb (name file) "__proto__" then acc
  else <[name file := pendingStatus]> acc.

(** [newFilesArray.reduce((acc, file) => { acc[file.name] = { status: 'pending' }; return acc; }, {})] *)
Definition newFilesWithStatus (newFilesArray : list File) : gmap string FileStatus :=
  foldl assignPending ∅ newFilesArray.

(** [e.target.files] is [None] when the input has no file list. *)
Definition handleFileSelect (target_files : option (list File)) (s : Sys W) : Sys W :=
  match target_files with
  | Some newFilesArray =>
      setFileProgress (fun prevProgress => newFilesWithStatus newFilesArray ∪ prevProgress)
        (setFiles (fun prevFiles => (prevFiles ++ newFilesArray)%list) s)
  | None => s
  end.

Definition handleDrop (dataTransfer_files : option (list File)) (s : Sys W) : Sys W :=
  let s := setDragging false s in
  match dataTransfer_files with
  | Some newFilesArray =>
      setFileProgress (fun prevProgress => newFilesWithStatus newFilesArray ∪ prevProgress)
        (setFiles (fun prevFiles => (prevFiles ++ newFilesArray)%list) s)
  | None => s
  end.

Definition removeFile (fileNameToRemove : string) (s : Sys W) : Sys W :=
  setFileProgress (fun prevProgress => delete fileNameToRemove prevProgress)
    (setFiles
       (List.filter (fun f => negb (String.eqb (name f) fileNameToRemove))) s).

(** *** Extraction *)

(** [file.name.split('.').pop()?.toLowerCase()] *)
Definition extensionOf (file : File) : string :=
  match last (split "." (name file)) with
  | Some e => toLowerCase e
  | None => ""
  end.

(** [file.name.substring(0, file.name.lastIndexOf('.')) || file.name] *)
Definition titleOf (file : File) : string :=
  orElse (substring (name file) 0 (lastIndexOf "." (name file))) (name file).

(** The [for] loop over the pages: [count] iterations are left
    ([numPages + 1 - pageNum]), [text] is the accumulator, and [visited]
    lists the [getPage] requests made so far. *)
Fixpoint pdfLoop (pdf : PDFDocumentProxy) (count pageNum : nat) (text : string)
    (visited : list nat) : list nat * Result string :=
  match count with
  | O => (visited, Ok text)
  | S count' =>
      let visited := (visited ++ [pageNum])%list in
      match getPage pdf pageNum with
      | Throw e => (visited, Throw e)
      | Ok page =>
          match getTextContent page with
          | Throw e => (visited, Throw e)
          | Ok contentObj =>
              pdfLoop pdf count' (S pageNum)
                (text ++ join " " (map str (items contentObj)) ++ LF)
                visited
          end
      end
  end.

(** The page requests and the text of a document: the loop from page 1 with
    an empty accumulator, then [text.trim()]. *)
Definition pdfText (pdf : PDFDocumentProxy) : list nat * Result string :=
  match pdfLoop pdf (numPages pdf) 1 "" [] with
  | (visited, Ok text) => (visited, Ok (trim text))
  | (visited, Throw e) => (visited, Throw e)
  end.

(** The promise around the [FileReader] of the image branch. *)
Definition ocrImage (file : File) : Result string :=
  match readAsDataURL file with
  | onerror shown => Throw (newError ("File reader error: " ++ shown))
  | onload None => Throw (newError "File reader did not produce a result.")
  | onload (Some base64WithPrefix) =>
      if String.eqb base64WithPrefix ""
      then Throw (newError "File reader did not produce a result.")
      else
        match nth_error (split "," base64WithPrefix) 1 with
        | None => Throw (newError "Could not extract base64 data from file.")
        | Some base64 =>
            if String.eqb base64 ""
            then Throw (newError "Could not extract base64 data from file.")
            else
              match performOCRWithGemini base64 (type file) with
              | Ok ocrText => Ok (orElse ocrText "")
              | Throw err => Throw err
              end
        end
  end.

(** The chain of [if]s on the extension: [Ok (Some content)] when a branch
    extracted, [Ok None] for the last [else] (no extraction is run), [Throw]
    when the branch taken threw. *)
Definition extractContent (file : File) : Result (option string) :=
  let extension := extensionOf file in
  if includes ["txt"; "md"] extension then
    match file_text file with
    | Ok content => Ok (Some content)
    | Throw e => Throw e
    end
  else if String.eqb extension "pdf" then
    match file_arrayBuffer file with
    | Throw e => Throw e
    | Ok arrayBuffer =>
        match getDocument arrayBuffer with
        | Throw e => Throw e
        | Ok pdf =>
            match snd (pdfText pdf) with
            | Ok content => Ok (Some content)
            | Throw e => Throw e
            end
        end
    end
  else if String.eqb extension "docx" then
    match file_arrayBuffer file with
    | Throw e => Throw e
    | Ok arrayBuffer =>
        match extractRawText arrayBuffer with
        | Ok text => Ok (Some text)
        | Throw e => Throw e
        end
    end
  else if includes ["png"; "jpg"; "jpeg"; "bmp"; "gif"] extension then
    match ocrImage file with
    | Ok content => Ok (Some content)
    | Throw e => Throw e
    end
  else Ok None.

(** *** Computations on the page: state, effects and exceptions *)

Definition M (A : Type) : Type := Sys W -> Result A * Sys W.

Definition ret {A} (a : A) : M A := fun s => (Ok a, s).

Definition bind {A B} (m : M A) (k : A -> M B) : M B :=
  fun s =>
    match m s with
    | (Ok a, s') => k a s'
    | (Throw e, s') => (Throw e, s')
    end.

Definition throw {A} (e : JsError) : M A := fun s => (Throw e, s).

(** [try { m } catch (err) { handler(err) }]: what [m] did to the state
    stays. *)
Definition tryCatch {A} (m : M A) (handler : JsError -> M A) : M A :=
  fun s =>
    match m s with
    | (Ok a, s') => (Ok a, s')
    | (Throw e, s') => handler e s'
    end.

Definition act (f : Sys W -> Sys W) : M unit := fun s => (Ok tt, f s).

Definition liftResult {A} (r : Result A) : M A := fun s => (r, s).

(** A call to a service of the backend, recorded before it is made. *)
Definition call {A} (e : Event) (f : W -> Result A * W) : M A :=
  fun s =>
    let '(r, w) := f (world s) in
    (r, setWorld w (emit e s)).

End Page.
Arguments M : clear implicits.

Declare Scope page_scope.
Delimit Scope page_scope with page.
Notation "x <- m ;; k" := (bind m (fun x => k))
  (at level 100, m at next level, k at level 200, right associativity) : page_scope.
Notation "m ;;; k" := (bind m (fun _ => k))
  (at level 100, k at level 200, right associativity) : page_scope.

Section Handlers.
Context {W : Type} `{Services W}.
Open Scope page_scope.

(** [setFileProgress(prev => ({ ...prev, [file.name]: { status, message } }))]:
    a computed key of an object literal, which defines the key under every
    name. *)
Definition setStatus (file : File) (st : Status) (msg : option string) : M W unit :=
  act (setFileProgress (fun prev => <[name file := {| status := st; message := msg |}]> prev)).

(** [toast.warn(msg)].  The [toast] of sonner has [success], [info],
    [warning], [error] and more, and no [warn]: the call is a call of
    [undefined], and throws a TypeError before anything is shown. *)
Definition toastWarn (msg : string) : M W unit :=
  throw (newError "toast.warn is not a function").

(** [processSingleFile]; [r] is the render whose closure runs.  The handler
    of the [catch] is not itself guarded: what it throws leaves the
    function. *)
Definition processSingleFile (r : Render) (file : File) : M W unit :=
  let title := titleOf file in
  setStatus file processing None ;;;
  tryCatch
    (extracted <- liftResult (extractContent file) ;;
     match extracted with
     | None =>
         toastWarn ("Unsupported file type: " ++ name file ++ ". Skipped.") ;;;
         setStatus file error (Some "Unsupported type")
     | Some content =>
         if String.eqb (trim content) "" then
           toastWarn
             ("No content extracted from " ++ name file ++ ". Skipped note creation.") ;;;
           setStatus file completed (Some "No content")
         else
           match r_user r with
           | None => throw (newError "User session expired. Please log in again.")
           | Some _ =>
               act (emit (console_log ("[ImportPage] Creating note for: " ++ title))) ;;;
               noteData <- call (call_createNote title content "active" false false)
                             (createNote {| title := title; content := content;
                                            note_status := "active";
                                            is_favorite := false;
                                            is_archived := false |}) ;;
               match noteData with
               | Some nd =>
                   if String.eqb (id nd) ""
                   then throw (newError "Failed to create note entry in the database.")
                   else
                     act (emit (console_log
                            ("[ImportPage] Processing note with AI: " ++ id nd))) ;;;
                     call (call_processNoteWithAI (id nd)) (processNoteWithAI (id nd)) ;;;
                     setStatus file completed None ;;;
                     act (emit (toast_success
                            ("Successfully imported and processed: " ++ name file)))
               | None => throw (newError "Failed to create note entry in the database.")
               end
           end
     end)
    (fun err =>
       act (emit (console_error
              ("[ImportPage] Error processing file " ++ name file ++ ":"))) ;;;
       (* the argument of toast.error reads err.message *)
       if isNullish err then throw (cannotReadMessage err)
       else
         act (emit (toast_error
                ("Failed importing " ++ name file ++ ": "
                 ++ messageOr err "Unknown error"))) ;;;
         setStatus file error (Some (messageOr err "Unknown error"))).

(** [fileProgress[file.name]?.status === 'error'], on the [fileProgress] of
    the render. *)
Definition snapshotIsError (r : Render) (file : File) : bool :=
  match r_fileProgress r !! name file with
  | Some {| status := error |} => true
  | _ => false
  end.

(** The [for ... of] loop of [handleImport]; the result is [allSuccessful].
    [await processSingleFile(file)] stands in no [try]: a rejection ends the
    loop and leaves [handleImport]. *)
Fixpoint importLoop (r : Render) (queue : list File) (allSuccessful : bool) : M W bool :=
  match queue with
  | [] => ret allSuccessful
  | file :: rest =>
      match r_user r with
      | None =>
          act (emit (toast_error
                 "Session expired during import. Some files may not have been processed.")) ;;;
          ret false
      | Some _ =>
          processSingleFile r file ;;;
          importLoop r rest (if snapshotIsError r file then false else allSuccessful)
      end
  end.

(** What follows the loop: the summary, the navigation, the reset. *)
Definition finishImport (r : Render) (allSuccessful : bool) : M W unit :=
  act (setIsProcessing false) ;;;
  act (emit (invalidateQueries "tags")) ;;;
  act (emit (invalidateQueries "notes")) ;;;
  (if allSuccessful && (0 <? length (r_files r))%nat then
     act (emit (toast_success
            ("All " ++ pretty (length (r_files r)) ++ " selected files processed!")))
   else if (0 <? length (r_files r))%nat then
     act (emit (toast_info
            "File processing finished. Check notifications for details on any errors."))
   else ret tt) ;;;
  (match r_user r with
   | Some _ => act (emit (navigate "/app"))
   | None => act (emit (navigate "/"))
   end) ;;;
  act (setFiles (fun _ => [])) ;;;
  act (setFileProgress (fun _ => ∅)).

Definition handleImport (r : Render) : M W unit :=
  if (length (r_files r) =? 0)%nat then
    act (emit (toast_error "Please select files to import"))
  else if (negb (bool_decide (is_Some (r_user r))) && negb (r_authLoading r))%bool then
    act (emit (toast_error "You are not logged in. Please log in to import files.")) ;;;
    act (emit (navigate "/login"))
  else
    act (setIsProcessing true) ;;;
    allSuccessful <- importLoop r (r_files r) true ;;
    finishImport r allSuccessful.

(** The effect of lines 44-49, run after a render. *)
Definition authEffect (r : Render) : M W unit :=
  if (negb (r_authLoading r) && negb (bool_decide (is_Some (r_user r))))%bool then
    act (emit (toast_error "Your session has expired. Please log in again.")) ;;;
    act (emit (navigate "/login"))
  else ret tt.

(** The page after one file has been handled: the entry of the file, the
    backend and the log have moved, the rest has not. *)
Definition settle (file : File) (st : FileStatus) (w : W) (evs : list Event)
    (s : Sys W) : Sys W :=
  {| files := files s;
     fileProgress := <[name file := st]> (fileProgress s);
     dragging := dragging s; isProcessing := isProcessing s;
     world := w; log := (log s ++ evs)%list |}.

(** Pressing Import runs [handleImport] of the current render; the button is
    disabled while [files] is empty, a run is in progress, or auth loads. *)
Definition clickImport (authLoading : bool) (s : Sys W) : Result unit * Sys W :=
  if ((length (files s) =? 0)%nat || isProcessing s || authLoading)%bool
  then (Ok tt, s)
  else handleImport (render authLoading s) s.

End Handlers.

(** The text of a document as the specification words it: the items of a page
    joined with spaces, the pages joined with newlines, the whole trimmed. *)
Definition pdfTextSpec (pages : list (list string)) : string :=
  trim (join LF (map (join " ") pages)).

(** The extensions of the [accept] attribute of the file input. *)
Definition accept : list string :=
  ["pdf"; "txt"; "doc"; "docx"; "md"; "png"; "jpg"; "jpeg"; "bmp"; "gif"].

(** The entries of a log that are calls to the persistence and AI services. *)
Definition isServiceCall (e : Event) : bool :=
  match e with
  | call_createNote _ _ _ _ _ | call_processNoteWithAI _ => true
  | _ => false
  end.
Definition serviceCalls (l : list Event) : list Event := List.filter isServiceCall l.

(** The entry of a file that is being processed. *)
Definition processingStatus : FileStatus :=
  {| status := processing; message := None |}.

(** No collaborator rejects with [null] or [undefined] while the files of
    [queue] are processed. *)
Definition noNullish {W : Type} `{Services W} (queue : list File) : Prop :=
  (forall f, In f queue -> rejectsNullish (extractContent f) = false)
  /\ (forall n w, rejectsNullish (fst (createNote n w)) = false)
  /\ (forall noteId w, rejectsNullish (fst (processNoteWithAI noteId w)) = false).

(** A status from which a file does not move again. *)
Definition terminal (st : FileStatus) : Prop :=
  status st = completed \/ status st = error.

(** Two pages that differ at most in the entry of [n] and in what they
    showed the user: same backend, same other entries, same service calls. *)
Definition agreeOff {W : Type} (n : string) (s1 s2 : Sys W) : Prop :=
  world s1 = world s2
  /\ (forall k, k <> n -> fileProgress s1 !! k = fileProgress s2 !! k)
  /\ serviceCalls (log s1) = serviceCalls (log s2).

(** *** The rest of the page *)

Section Dragging.
Context {W : Type}.

Definition handleDragEnter (s : Sys W) : Sys W := setDragging true s.

Definition handleDragLeave (s : Sys W) : Sys W := setDragging false s.

(** [if (!dragging) setDragging(true)], on the [dragging] of the render. *)
Definition handleDragOver (r_dragging : bool) (s : Sys W) : Sys W :=
  if negb r_dragging then setDragging true s else s.

End Dragging.

(** The icons of [getFileIcon], by component and colour. *)
Inductive Icon : Type :=
| FileText_red
| FileText_blue
| File_gray
| Image_green
| File_purple.

Definition getFileIcon (file : File) : Icon :=
  let extension := extensionOf file in
  if String.eqb extension "pdf" then FileText_red
  else if includes ["doc"; "docx"] extension then FileText_blue
  else if includes ["txt"; "md"] extension then File_gray
  else if includes ["png"; "jpg"; "jpeg"; "bmp"; "gif"] extension then Image_green
  else File_purple.

(** A page fails when [getPage] throws or when its [getTextContent] does. *)
Definition pageFails (pdf : PDFDocumentProxy) (n : nat) (e : JsError) : Prop :=
  getPage pdf n = Throw e
  \/ exists page, getPage pdf n = Ok page /\ getTextContent page = Throw e.

(** The queue and the status map name the same files. *)
Definition namesMatch {W : Type} (s : Sys W) : Prop :=
  forall n, is_Some (fileProgress s !! n) <-> In n (map name (files s)).

Definition isCreateNote (e : Event) : bool :=
  match e with
  | call_createNote _ _ _ _ _ => true
  | _ => false
  end.

Definition isProcessNoteWithAI (e : Event) : bool :=
  match e with
  | call_processNoteWithAI _ => true
  | _ => false
  end.

(** How many notes were requested, and how many enrichments, in a log. *)
Definition notesRequested (l : list Event) : nat :=
  length (List.filter isCreateNote l).
Definition enrichmentsRequested (l : list Event) : nat :=
  length (List.filter isProcessNoteWithAI l).

End ImportPage.

(** ** A small backend to run the page on *)

Module Demo.
Import Js Ui ImportPage.

(** The session token is good for [ttl] more requests; [stored] are the
    notes created so far. *)
Record Backend := {
  ttl : nat;
  stored : list NewNote
}.

Definition demoUser : User := {| user_id := "u1" |}.

(** A document whose pages are given by the strings of their items. *)
Definition pdfOf (pages : list (list string)) : PDFDocumentProxy :=
  {| numPages := length pages;
     getPage := fun pageNum =>
       match pageNum with
       | O => Throw (newError "Invalid page request")
       | S i =>
           match nth_error pages i with
           | Some strs =>
               Ok {| getTextContent := Ok {| items := map (fun x => {| str := x |}) strs |} |}
           | None => Throw (newError "Invalid page request")
           end
       end |}.

#[export] Instance services : Services Backend := {|
  session w := if (0 <? ttl w)%nat then Some demoUser else None;
  file_text f := Ok (data f);
  file_arrayBuffer f := Ok (data f);
  getDocument buf :=
    if String.prefix "%PDF" buf then Ok (pdfOf [[buf]])
    else Throw (newError "Invalid PDF structure.");
  extractRawText buf := Ok buf;
  readAsDataURL f := onload (Some ("data:" ++ type f ++ ";base64," ++ data f));
  performOCRWithGemini base64 mimeType := Ok base64;
  createNote n w :=
    match ttl w with
    | O => (Throw (newError "JWT expired"), w)
    | S t =>
        (Ok (Some {| id := "note-" ++ pretty (length (stored w)) |}),
         {| ttl := t; stored := (stored w ++ [n])%list |})
    end;
  processNoteWithAI noteId w :=
    match ttl w with
    | O => (Throw (newError "JWT expired"), w)
    | S t => (Ok tt, {| ttl := t; stored := stored w |})
    end
|}.

(** The page as it is first shown. *)
Definition start (w : Backend) : Sys Backend :=
  {| files := []; fileProgress := ∅; dragging := false; isProcessing := false;
     world := w; log := [] |}.

Definition txt (n body : string) : File :=
  {| name := n; type := "text/plain"; data := body |}.
Definition pdf (n body : string) : File :=
  {| name := n; type := "application/pdf"; data := body |}.
Definition png (n body : string) : File :=
  {| name := n; type := "image/png"; data := body |}.

(** The same backend behind an OCR service that rejects with [undefined]. *)
Definition rejectingOcr : Services Backend := {|
  session := session;
  file_text := file_text;
  file_arrayBuffer := file_arrayBuffer;
  getDocument := getDocument;
  extractRawText := extractRawText;
  readAsDataURL := readAsDataURL;
  performOCRWithGemini base64 mimeType := Throw Undefined;
  createNote := createNote;
  processNoteWithAI := processNoteWithAI
|}.

End Demo.

(** ** Dashboard.tsx: the list, the tag filters and the tag form *)

Module Tags.

(** A tag of tagsService. *)
Record Tag := {
  id : string;
  name : string;
  color : string
}.

End Tags.

Module DashboardView.
Import Js Ui.

(** An element of [note.tags]: the id of a tag, or the tag. *)
Inductive TagOrId : Type :=
| tagId (x : string)
| tagObject (t : Tags.Tag).

(** The fields of a note that the list reads; an optional field is [None]
    when it is null or undefined. *)
Record Note := {
  id : string;
  title : option string;
  content : option string;
  ai_summary : option string;
  tags : option (list TagOrId);
  ai_summary_keywords : option (list (option string))
}.

Inductive Tab : Type := all | favorites | recent.

(** The data of the queries; [titleContentSearchedNotes] has no default. *)
Record Queries := {
  allNotes : list Note;
  favoriteNotes : list Note;
  recentlyViewedNotes : list Note;
  titleContentSearchedNotes : option (list Note)
}.

Inductive Event : Type :=
| ui (e : Ui.Event)
| call_createTag (name color : string)
| call_deleteTag (tagId : string).

(** The [useState] values of the page, and the effects so far. *)
Record State := {
  searchTerm : string;
  debouncedSearchTerm : string;
  activeFilterTagIds : list string;
  activeDocumentTab : Tab;
  isSidebarOpen : bool;
  newTagName : string;
  newTagColor : string;
  isCreatingTag : bool;
  showNewTagForm : bool;
  log : list Event
}.

(** [x?.toLowerCase().includes(searchTermLower)] *)
Definition fieldMatch (searchTermLower : string) (x : option string) : bool :=
  match x with
  | Some v => strIncludes (toLowerCase v) searchTermLower
  | None => false
  end.

(** The predicate of the client-side search. *)
Definition matchesSearch (searchTermLower : string) (note : Note) : bool :=
  let titleMatch := fieldMatch searchTermLower (title note) in
  let contentMatch := fieldMatch searchTermLower (content note) in
  let summaryMatch := fieldMatch searchTermLower (ai_summary note) in
  let tagMatch :=
    match tags note with
    | Some l =>
        existsb (fun tag =>
                   match tag with
                   | tagId x => strIncludes (toLowerCase x) searchTermLower
                   | tagObject t =>
                       if String.eqb (Tags.name t) "" then false
                       else strIncludes (toLowerCase (Tags.name t)) searchTermLower
                   end) l
    | None => false
    end in
  let keywordMatch :=
    match ai_summary_keywords note with
    | Some l => existsb (fieldMatch searchTermLower) l
    | None => false
    end in
  titleMatch || contentMatch || summaryMatch || tagMatch || keywordMatch.

(** The predicate of the tag filter: some active id is the id of some tag of
    the note. *)
Definition hasActiveTag (activeIds : list string) (note : Note) : bool :=
  let noteTags := match tags note with Some l => l | None => [] end in
  existsb (fun filterTagId =>
             existsb (fun tag =>
                        match tag with
                        | tagId x => String.eqb x filterTagId
                        | tagObject t => String.eqb (Tags.id t) filterTagId
                        end) noteTags) activeIds.

(** The list of the active tab. *)
Definition baseNotesOf (q : Queries) (s : State) : list Note :=
  match activeDocumentTab s with
  | favorites => favoriteNotes q
  | recent => recentlyViewedNotes q
  | all => allNotes q
  end.

(** [filteredNotes] at the end of [displayedNotes], before the cards are
    built. *)
Definition filteredNotes (q : Queries) (s : State) : list Note :=
  let baseNotes :=
    match activeDocumentTab s with
    | favorites => favoriteNotes q
    | recent => recentlyViewedNotes q
    | all => allNotes q
    end in
  let filteredNotes :=
    if negb (String.eqb (trim (debouncedSearchTerm s)) "") then
      let searchTermLower := toLowerCase (debouncedSearchTerm s) in
      match titleContentSearchedNotes q, activeDocumentTab s with
      | Some found, all => found
      | _, _ => List.filter (matchesSearch searchTermLower) baseNotes
      end
    else baseNotes in
  if ((0 <? length (activeFilterTagIds s))%nat
      && String.eqb (debouncedSearchTerm s) "")%bool
  then List.filter (hasActiveTag (activeFilterTagIds s)) filteredNotes
  else filteredNotes.

(** One element of [noteFullTags]: an id is looked up in the tags of the
    page, by id or by name without case, and gets a gray tag of its own when
    none answers; a tag stays.  (The [filter(Boolean)] that follows drops
    nothing: every element is an object.) *)
Definition resolveTag (tags : list Tags.Tag) (tagOrId : TagOrId) : Tags.Tag :=
  match tagOrId with
  | tagId x =>
      match List.find (fun t => String.eqb (Tags.id t) x
                                || String.eqb (toLowerCase (Tags.name t)) (toLowerCase x))
                      tags with
      | Some foundTag => foundTag
      | None => {| Tags.id := x; Tags.name := x; Tags.color := "#718096" |}
      end
  | tagObject t => t
  end.

Definition noteFullTags (tags : list Tags.Tag) (note : Note) : list Tags.Tag :=
  match DashboardView.tags note with
  | Some l => map (resolveTag tags) l
  | None => []
  end.

(** [handleTagFilterClick]; [innerWidth] is [window.innerWidth], [None] where
    there is no window. *)
Definition handleTagFilterClick (innerWidth : option Z) (tag : string) (s : State)
    : State :=
  {| searchTerm := "";
     debouncedSearchTerm := "";
     activeFilterTagIds :=
       (let prevIds := activeFilterTagIds s in
        if includes prevIds tag
        then List.filter (fun x => negb (String.eqb x tag)) prevIds
        else prevIds ++ [tag])%list;
     activeDocumentTab := activeDocumentTab s;
     isSidebarOpen :=
       match innerWidth with
       | Some w => if (w <? 768)%Z then false else isSidebarOpen s
       | None => isSidebarOpen s
       end;
     newTagName := newTagName s;
     newTagColor := newTagColor s;
     isCreatingTag := isCreatingTag s;
     showNewTagForm := showNewTagForm s;
     log := log s |}.

Definition clearTagFilters (s : State) : State :=
  {| searchTerm := searchTerm s;
     debouncedSearchTerm := debouncedSearchTerm s;
     activeFilterTagIds := [];
     activeDocumentTab := activeDocumentTab s;
     isSidebarOpen := isSidebarOpen s;
     newTagName := newTagName s;
     newTagColor := newTagColor s;
     isCreatingTag := isCreatingTag s;
     showNewTagForm := showNewTagForm s;
     log := log s |}.

(** The setters of the tag form, and the effects. *)
Definition withForm (n c : string) (creating shown : bool) (l : list Event)
    (s : State) : State :=
  {| searchTerm := searchTerm s;
     debouncedSearchTerm := debouncedSearchTerm s;
     activeFilterTagIds := activeFilterTagIds s;
     activeDocumentTab := activeDocumentTab s;
     isSidebarOpen := isSidebarOpen s;
     newTagName := n;
     newTagColor := c;
     isCreatingTag := creating;
     showNewTagForm := shown;
     log := l |}.

Definition setNewTagName (n : string) (s : State) : State :=
  withForm n (newTagColor s) (isCreatingTag s) (showNewTagForm s) (log s) s.
Definition setNewTagColor (c : string) (s : State) : State :=
  withForm (newTagName s) c (isCreatingTag s) (showNewTagForm s) (log s) s.
Definition setIsCreatingTag (b : bool) (s : State) : State :=
  withForm (newTagName s) (newTagColor s) b (showNewTagForm s) (log s) s.
Definition setShowNewTagForm (b : bool) (s : State) : State :=
  withForm (newTagName s) (newTagColor s) (isCreatingTag s) b (log s) s.
Definition emit (e : Event) (s : State) : State :=
  withForm (newTagName s) (newTagColor s) (isCreatingTag s) (showNewTagForm s)
    (log s ++ [e])%list s.

(** [handleCreateTag]; [createTag] is the request of tagsService.  The name
    and the colour are those of the render, so the notification names the tag
    although the form has been reset; [finally] closes both paths of the
    [try]. *)
Definition handleCreateTag (createTag : string -> string -> Result unit) (s : State)
    : State :=
  let n := newTagName s in
  let c := newTagColor s in
  if String.eqb (trim n) "" then
    emit (ui (toast_error "Tag name cannot be empty")) s
  else
    let s1 := setIsCreatingTag true s in
    let s2 :=
      match createTag n c with
      | Ok _ =>
          emit (ui (toast_success ("Tag " ++ dquote ++ n ++ dquote ++ " created")))
            (emit (ui (invalidateQueries "tags"))
               (setShowNewTagForm false
                  (setNewTagColor "#3B82F6"
                     (setNewTagName "" (emit (call_createTag n c) s1)))))
      | Throw _ =>
          emit (ui (toast_error "Failed to create tag"))
            (emit (ui (console_error "Error creating tag:"))
               (emit (call_createTag n c) s1))
      end in
    setIsCreatingTag false s2.

Definition handleDeleteTag (deleteTag : string -> Result unit)
    (tag tagName : string) (s : State) : State :=
  match deleteTag tag with
  | Ok _ =>
      emit (ui (toast_success ("Tag " ++ dquote ++ tagName ++ dquote ++ " deleted")))
        (emit (ui (invalidateQueries "tags")) (emit (call_deleteTag tag) s))
  | Throw _ =>
      emit (ui (toast_error "Failed to delete tag"))
        (emit (ui (console_error "Error deleting tag:")) (emit (call_deleteTag tag) s))
  end.

End DashboardView.

(** ** The note viewer *)

Module NoteViewer.
Import Js Ui.

(** [handleFavoriteToggle]: the handler of the parent is awaited inside a
    [try]; a rejection is written to the console and goes no further. *)
Definition handleFavoriteToggle
    (onToggleFavorite : string -> bool -> Dashboard.State -> Result unit * Dashboard.State)
    (id : string) (isFavorite : bool) (s : Dashboard.State)
    : Result unit * Dashboard.State :=
  match onToggleFavorite id isFavorite s with
  | (Ok _, s') => (Ok tt, s')
  | (Throw _, s') =>
      (Ok tt,
       {| Dashboard.cache := Dashboard.cache s';
          Dashboard.log :=
            (Dashboard.log s' ++ [console_error "Failed to toggle favorite:"])%list |})
  end.

End NoteViewer.

Import Js.

(** ** Facts about the built-ins *)

Example parseInt16_ff : parseInt16 "ff" = 255%float.
Proof. reflexivity. Qed.

Example parseInt16_nan : PrimFloat.is_nan (parseInt16 "zz") = true.
Proof. reflexivity. Qed.

Example parseInt16_forms :
  parseInt16 " f" = 15%float /\ parseInt16 "-f" = (-15)%float
  /\ parseInt16 "+a" = 10%float /\ parseInt16 "1g" = 1%float
  /\ parseInt16 "0X" = PrimFloat.nan /\ parseInt16 "" = PrimFloat.nan.
Proof. repeat split. Qed.

Example split_forms :
  split "." "a.tar.GZ" = ["a"; "tar"; "GZ"] /\ split "." "" = [""]
  /\ split "." "a." = ["a"; ""] /\ split "," "data:x;base64,QUJD" = ["data:x;base64"; "QUJD"].
Proof. repeat split. Qed.

Example trim_forms :
  trim ("  a b " ++ LF) = "a b" /\ trim (" " ++ LF) = "" /\ trim "x" = "x".
Proof. repeat split. Qed.

Example names_forms :
  ImportPage.titleOf (Demo.txt "note1.txt" "") = "note1"
  /\ ImportPage.titleOf (Demo.txt "README" "") = "README"
  /\ ImportPage.titleOf (Demo.txt ".env" "") = ".env"
  /\ ImportPage.titleOf (Demo.txt "a.b.md" "") = "a.b"
  /\ ImportPage.extensionOf (Demo.txt "Scan.JPEG" "") = "jpeg"
  /\ ImportPage.extensionOf (Demo.txt "README" "") = "readme"
  /\ ImportPage.extensionOf (Demo.txt "a." "") = "".
Proof. repeat split. Qed.

Example contrast_white : Dashboard.getContrastingTextColor "#ffffff" = "#000000".
Proof. reflexivity. Qed.

Example contrast_navy : Dashboard.getContrastingTextColor "#000080" = "#FFFFFF".
Proof. reflexivity. Qed.

Example contrast_not_hex : Dashboard.getContrastingTextColor "#zzzzzz" = "#FFFFFF".
Proof. reflexivity. Qed.

(** C10. [getContrastingTextColor] returns on every string, its value is
    ['#000000'] or ['#FFFFFF'], and it is ['#000000'] whenever the input is
    not a 7-character string starting with ['#']. *)
Theorem getContrastingTextColor_two_valued (hexColor : string) :
  (Dashboard.getContrastingTextColor hexColor = "#000000"
   \/ Dashboard.getContrastingTextColor hexColor = "#FFFFFF")
  /\ (~ (String.length hexColor = 7%nat /\ String.get 0 hexColor = Some "#"%char) ->
      Dashboard.getContrastingTextColor hexColor = "#000000").
Proof.
  unfold Dashboard.getContrastingTextColor, Dashboard.notHexColor.
  split.
  - destruct (_ || _ || _)%bool; [now left|].
    unfold Dashboard.contrastOf.
    destruct (PrimFloat.ltb _ _); [now left | now right].
  - intros Hnot.
    destruct (String.eqb hexColor "") eqn:He; [reflexivity|].
    destruct (Nat.eqb (String.length hexColor) 7) eqn:Hl; [|reflexivity].
    apply Nat.eqb_eq in Hl. cbn [negb orb].
    destruct (String.get 0 hexColor) as [c|] eqn:Hg; [|reflexivity].
    destruct (Ascii.eqb c "#") eqn:Hc; [|reflexivity].
    apply Ascii.eqb_eq in Hc. subst c. exfalso. apply Hnot. now split.
Qed.

Lemma getContrastingTextColor_two_valued_witness :
  Dashboard.getContrastingTextColor "red" = "#000000".
Proof.
  apply (getContrastingTextColor_two_valued "red").
  intros [Hlen _]. discriminate Hlen.
Defined.

(** ** The text of a PDF *)

Section PdfText.
Import ImportPage.

Lemma trimEnd_app_LF (s : string) : trimEnd (s ++ LF) = trimEnd s.
Proof.
  induction s as [|a s IH]; [reflexivity|].
  simpl. now rewrite IH.
Qed.

Lemma trimStart_app_LF (s : string) :
  trimStart (s ++ LF) = match trimStart s with
                        | EmptyString => EmptyString
                        | t => t ++ LF
                        end.
Proof.
  induction s as [|a s IH]; [reflexivity|].
  simpl. destruct (isWhiteSpace a); [exact IH | reflexivity].
Qed.

Lemma trim_app_LF (s : string) : trim (s ++ LF) = trim s.
Proof.
  unfold trim. rewrite trimStart_app_LF.
  destruct (trimStart s) as [|a t] eqn:E; [reflexivity|].
  apply trimEnd_app_LF.
Qed.

Lemma string_app_cons (x : ascii) (a b : string) :
  String x a ++ b = String x (a ++ b).
Proof. reflexivity. Qed.

Lemma string_app_assoc (a b c : string) : (a ++ b) ++ c = a ++ b ++ c.
Proof.
  induction a as [|x a IH]; [reflexivity|].
  now rewrite !string_app_cons, IH.
Qed.

Lemma string_app_nil_r (a : string) : a ++ "" = a.
Proof.
  induction a as [|x a IH]; [reflexivity|].
  now rewrite string_app_cons, IH.
Qed.

(** Each page followed by a newline is the pages joined by newlines, and one
    more newline. *)
Lemma lines_join (l : list string) :
  l <> [] ->
  fold_right (fun x acc => x ++ LF ++ acc) "" l = join LF l ++ LF.
Proof.
  induction l as [|x [|y l] IH]; intros Hne; [congruence| |].
  - cbn. now rewrite string_app_nil_r.
  - change (x ++ LF ++ fold_right (fun x acc => x ++ LF ++ acc) "" (y :: l)
            = (x ++ LF ++ join LF (y :: l)) ++ LF).
    rewrite IH by congruence. now rewrite !string_app_assoc.
Qed.

Lemma pdfLoop_ok (pdf : PDFDocumentProxy) (tc : nat -> TextContent) :
  forall count pageNum text visited,
  (forall n, pageNum <= n < pageNum + count ->
             getPage pdf n = Ok {| getTextContent := Ok (tc n) |}) ->
  pdfLoop pdf count pageNum text visited =
  ((visited ++ seq pageNum count)%list,
   Ok (text ++ fold_right (fun x acc => x ++ LF ++ acc) ""
                 (map (fun n => join " " (map str (items (tc n)))) (seq pageNum count)))).
Proof.
  induction count as [|count IH]; intros pageNum text visited Hpages.
  - cbn. now rewrite app_nil_r, string_app_nil_r.
  - cbn [pdfLoop]. rewrite (Hpages pageNum) by lia. cbn [getTextContent].
    rewrite IH by (intros n Hn; apply Hpages; lia).
    cbn [seq map fold_right]. rewrite <- app_assoc.
    now rewrite !string_app_assoc.
Qed.

(** Whatever the pages do, the requests are 1, 2, ..., k for some k up to the
    page count: none skipped, none repeated, none out of order. *)
Lemma pdfLoop_visits (pdf : PDFDocumentProxy) :
  forall count pageNum text visited,
  exists k, k <= count /\
    fst (pdfLoop pdf count pageNum text visited) = (visited ++ seq pageNum k)%list.
Proof.
  induction count as [|count IH]; intros pageNum text visited.
  - exists 0. split; [lia|]. cbn. now rewrite app_nil_r.
  - cbn [pdfLoop].
    destruct (getPage pdf pageNum) as [page|e].
    + destruct (getTextContent page) as [contentObj|e].
      * destruct (IH (S pageNum)
                    (text ++ join " " (map str (items contentObj)) ++ LF)
                    (visited ++ [pageNum])%list) as (k & Hk & E).
        exists (S k). split; [lia|]. rewrite E. cbn [seq].
        now rewrite <- app_assoc.
      * exists 1. split; [lia|]. reflexivity.
    + exists 1. split; [lia|]. reflexivity.
Qed.

Lemma pdfText_visits (pdf : PDFDocumentProxy) :
  exists k, k <= numPages pdf /\ fst (pdfText pdf) = seq 1 k.
Proof.
  unfold pdfText.
  destruct (pdfLoop_visits pdf (numPages pdf) 1 "" []) as (k & Hk & E).
  exists k. split; [exact Hk|].
  destruct (pdfLoop pdf (numPages pdf) 1 "" []) as [visited [text|e]];
    cbn in *; exact E.
Qed.

(** C5. When the pages of a document can be read, the extractor requests
    pages 1, 2, ..., N in this order, each once, and its text is the items of
    each page joined with single spaces, the pages joined with newlines, the
    whole trimmed. *)
Theorem pdfText_pages_in_order (pdf : PDFDocumentProxy) (tc : nat -> TextContent) :
  (forall n, 1 <= n <= numPages pdf ->
             getPage pdf n = Ok {| getTextContent := Ok (tc n) |}) ->
  pdfText pdf =
  (seq 1 (numPages pdf),
   Ok (pdfTextSpec (map (fun n => map str (items (tc n))) (seq 1 (numPages pdf))))).
Proof.
  intros Hpages. unfold pdfText, pdfTextSpec.
  rewrite (pdfLoop_ok pdf tc) by (intros n Hn; apply Hpages; lia).
  cbn [app]. change ("" ++ ?x) with x. rewrite map_map.
  destruct (numPages pdf) as [|n] eqn:En; [reflexivity|].
  rewrite lines_join by (cbn; congruence).
  now rewrite trim_app_LF.
Qed.

Lemma pdfText_pages_in_order_witness :
  pdfText (Demo.pdfOf [["a"; "b"]; []; ["c"; " d "]]) =
  ([1; 2; 3], Ok (pdfTextSpec [["a"; "b"]; []; ["c"; " d "]])).
Proof.
  apply (pdfText_pages_in_order (Demo.pdfOf [["a"; "b"]; []; ["c"; " d "]])
           (fun n => {| items := map (fun x => {| str := x |})
                                   (nth (n - 1) [["a"; "b"]; []; ["c"; " d "]] []) |})).
  intros n Hn. cbn in Hn.
  destruct n as [|[|[|[|n]]]]; try lia; reflexivity.
Defined.

End PdfText.

(** ** Processing one file *)

Section SingleFile.
Import Ui ImportPage.
Context {W : Type} `{Services W}.

Ltac run :=
  cbv [processSingleFile setStatus toastWarn bind tryCatch act liftResult throw call
       ret emit setFileProgress setWorld settle fst snd isNullish cannotReadMessage
       newError processingStatus
       files fileProgress dragging isProcessing world log].

Tactic Notation "use" constr(E) := rewrite E; run.

Ltac settled :=
  cbv [settle processingStatus files fileProgress dragging isProcessing world log];
  rewrite ?insert_insert_eq, <- ?app_assoc; reflexivity.

(** The unsupported branch: the warning throws, and the [catch] takes over. *)
Lemma processSingleFile_unsupported (r : Render) (file : File) (s : Sys W) :
  extractContent file = Ok None ->
  processSingleFile r file s =
  (Ok tt,
   settle file {| status := error; message := Some "toast.warn is not a function" |}
     (world s)
     [console_error ("[ImportPage] Error processing file " ++ name file ++ ":");
      toast_error ("Failed importing " ++ name file ++ ": toast.warn is not a function")]
     s).
Proof.
  intros E. destruct s. run. use E. settled.
Qed.

(** The branch of a thrown extraction, for a value that is not [null] or
    [undefined]. *)
Lemma processSingleFile_extraction_throws (r : Render) (file : File) (e : JsError)
    (s : Sys W) :
  extractContent file = Throw e ->
  isNullish e = false ->
  processSingleFile r file s =
  (Ok tt,
   settle file
     {| status := error; message := Some (messageOr e "Unknown error") |} (world s)
     [console_error ("[ImportPage] Error processing file " ++ name file ++ ":");
      toast_error ("Failed importing " ++ name file ++ ": " ++ messageOr e "Unknown error")]
     s).
Proof.
  intros E He. destruct e as [m| |]; try discriminate He.
  destruct s. run. use E. settled.
Qed.

(** The branch of an extraction that rejects with [null] or [undefined]: the
    [catch] throws in its turn, and the entry is left as it was set at the
    start. *)
Lemma processSingleFile_extraction_rejects (r : Render) (file : File) (e : JsError)
    (s : Sys W) :
  extractContent file = Throw e ->
  isNullish e = true ->
  processSingleFile r file s =
  (Throw (cannotReadMessage e),
   settle file processingStatus (world s)
     [console_error ("[ImportPage] Error processing file " ++ name file ++ ":")] s).
Proof.
  intros E He. destruct e as [m| |]; try discriminate He;
    destruct s; run; use E; settled.
Qed.

(** The branch of an empty text: the warning throws, and the [catch] takes
    over. *)
Lemma processSingleFile_no_content (r : Render) (file : File) (content : string)
    (s : Sys W) :
  extractContent file = Ok (Some content) ->
  trim content = "" ->
  processSingleFile r file s =
  (Ok tt,
   settle file {| status := error; message := Some "toast.warn is not a function" |}
     (world s)
     [console_error ("[ImportPage] Error processing file " ++ name file ++ ":");
      toast_error ("Failed importing " ++ name file ++ ": toast.warn is not a function")]
     s).
Proof.
  intros E Et. rewrite <- String.eqb_eq in Et. destruct s. run. use E. use Et. settled.
Qed.

Lemma noNullish_cons (f : File) (rest : list File) :
  noNullish (f :: rest) -> noNullish [f] /\ noNullish rest.
Proof.
  intros (Hx & Hc & Ha). split; (split; [|split]; [|exact Hc|exact Ha]).
  - intros g [<-|[]]. apply Hx. now left.
  - intros g Hg. apply Hx. now right.
Qed.

Lemma noNullish_app (a b : list File) :
  noNullish (a ++ b) -> noNullish a /\ noNullish b.
Proof.
  intros (Hx & Hc & Ha). split; (split; [|split]; [|exact Hc|exact Ha]);
    intros g Hg; apply Hx, in_or_app; [now left | now right].
Qed.

(** Every run of [processSingleFile] changes the page in the entry of its
    file, the backend and the log only, by what the file and the backend
    fix.  It returns normally with the entry completed or error; or, and only
    when a collaborator rejected with [null] or [undefined], it throws with the
    entry still processing.  A note is requested only for the text extracted
    from the file, when that text is not blank. *)
Lemma processSingleFile_run (r : Render) (file : File) (w : W) :
  exists res st w' evs,
    match res with
    | Ok _ => terminal st
    | Throw _ => st = processingStatus /\ ~ noNullish [file]
    end /\
    (forall t c ns fv ar, In (call_createNote t c ns fv ar) evs ->
       extractContent file = Ok (Some c) /\ trim c <> "") /\
    forall s, world s = w ->
      processSingleFile r file s = (res, settle file st w' evs s).
Proof.
  assert (Hnone : forall evs : list Event,
            Forall (fun e => match e with call_createNote _ _ _ _ _ => False | _ => True end) evs ->
            forall t c ns fv ar, In (call_createNote t c ns fv ar) evs ->
              extractContent file = Ok (Some c) /\ trim c <> "").
  { intros evs Hall t c ns fv ar Hin. rewrite List.Forall_forall in Hall.
    destruct (Hall _ Hin). }
  destruct (extractContent file) as [[content|]|e] eqn:E.
  - destruct (String.eqb (trim content) "") eqn:Et.
    + apply String.eqb_eq in Et.
      do 4 eexists. split; [|split].
      3:{ intros s Hw.
          rewrite (processSingleFile_no_content r file content s E Et), Hw.
          reflexivity. }
      1: now right.
      apply Hnone. repeat constructor.
    + assert (Hcall : forall rest : list Event,
                Forall (fun e => match e with call_createNote _ _ _ _ _ => False | _ => True end) rest ->
                forall t c ns fv ar,
                  In (call_createNote t c ns fv ar)
                     (console_log ("[ImportPage] Creating note for: " ++ titleOf file)
                      :: call_createNote (titleOf file) content "active" false false
                      :: rest) ->
                  Ok (Some content) = Ok (Some c) /\ trim c <> "").
      { intros rest Hall t c ns fv ar [Hin|[Hin|Hin]]; [discriminate Hin| |].
        - injection Hin as <- <- <- <- <-. split; [reflexivity|].
          intros Hc. rewrite Hc in Et. discriminate Et.
        - rewrite List.Forall_forall in Hall. destruct (Hall _ Hin). }
      destruct (r_user r) as [u|] eqn:Eu.
      * destruct (createNote
                    {| title := titleOf file; content := content;
                       note_status := "active"; is_favorite := false;
                       is_archived := false |} w) as [[[nd|]|e] w1] eqn:Ec.
        -- destruct (String.eqb (id nd) "") eqn:Ei.
           ++ do 4 eexists. split; [|split].
              3:{ intros [? ? ? ? w0 ?] Hw; cbn [world] in Hw; subst w0.
                  run; use E; use Et; use Eu; use Ec; use Ei; settled. }
              1: now right.
              apply Hcall. repeat constructor.
           ++ destruct (processNoteWithAI (id nd) w1) as [[[]|e] w2] eqn:Ea.
              ** do 4 eexists. split; [|split].
                 3:{ intros [? ? ? ? w0 ?] Hw; cbn [world] in Hw; subst w0.
                     run; use E; use Et; use Eu; use Ec; use Ei; use Ea; settled. }
                 1: now left.
                 apply Hcall. repeat constructor.
              ** destruct (isNullish e) eqn:En.
                 --- exists (Throw (cannotReadMessage e)).
                     do 3 eexists. split; [|split].
                     3:{ intros [? ? ? ? w0 ?] Hw; cbn [world] in Hw; subst w0.
                         destruct e as [m| |]; try discriminate En;
                           run; use E; use Et; use Eu; use Ec; use Ei; use Ea; settled. }
                     1:{ split; [reflexivity|]. intros (_ & _ & Ha).
                         specialize (Ha (id nd) w1). rewrite Ea in Ha. cbn in Ha.
                         congruence. }
                     apply Hcall. repeat constructor.
                 --- do 4 eexists. split; [|split].
                     3:{ intros [? ? ? ? w0 ?] Hw; cbn [world] in Hw; subst w0.
                         destruct e as [m| |]; try discriminate En.
                         run; use E; use Et; use Eu; use Ec; use Ei; use Ea; settled. }
                     1: now right.
                     apply Hcall. repeat constructor.
        -- do 4 eexists. split; [|split].
           3:{ intros [? ? ? ? w0 ?] Hw; cbn [world] in Hw; subst w0.
               run; use E; use Et; use Eu; use Ec; settled. }
           1: now right.
           apply Hcall. repeat constructor.
        -- destruct (isNullish e) eqn:En.
           ++ exists (Throw (cannotReadMessage e)).
              do 3 eexists. split; [|split].
              3:{ intros [? ? ? ? w0 ?] Hw; cbn [world] in Hw; subst w0.
                  destruct e as [m| |]; try discriminate En;
                    run; use E; use Et; use Eu; use Ec; settled. }
              1:{ split; [reflexivity|]. intros (_ & Hc & _).
                  specialize (Hc {| title := titleOf file; content := content;
                                    note_status := "active"; is_favorite := false;
                                    is_archived := false |} w).
                  rewrite Ec in Hc. cbn in Hc. congruence. }
              apply Hcall. repeat constructor.
           ++ do 4 eexists. split; [|split].
              3:{ intros [? ? ? ? w0 ?] Hw; cbn [world] in Hw; subst w0.
                  destruct e as [m| |]; try discriminate En.
                  run; use E; use Et; use Eu; use Ec; settled. }
              1: now right.
              apply Hcall. repeat constructor.
      * do 4 eexists. split; [|split].
        3:{ intros [? ? ? ? w0 ?] Hw; cbn [world] in Hw; subst w0.
            run; use E; use Et; use Eu; settled. }
        1: now right.
        apply Hnone. repeat constructor.
  - do 4 eexists. split; [|split].
    3:{ intros s Hw. rewrite (processSingleFile_unsupported r file s E), Hw.
        reflexivity. }
    1: now right.
    apply Hnone. repeat constructor.
  - destruct (isNullish e) eqn:En.
    + do 4 eexists. split; [|split].
      3:{ intros s Hw. rewrite (processSingleFile_extraction_rejects r file e s E En), Hw.
          reflexivity. }
      1:{ split; [reflexivity|]. intros (Hx & _ & _).
          specialize (Hx file (or_introl eq_refl)). rewrite E in Hx. cbn in Hx.
          congruence. }
      apply Hnone. repeat constructor.
    + do 4 eexists. split; [|split].
      3:{ intros s Hw. rewrite (processSingleFile_extraction_throws r file e s E En), Hw.
          reflexivity. }
      1: now right.
      apply Hnone. repeat constructor.
Qed.

(** When no collaborator rejects with [null] or [undefined],
    [processSingleFile] returns and leaves the file in a terminal status. *)
Lemma processSingleFile_settles (r : Render) (file : File) (w : W) :
  noNullish [file] ->
  exists st w' evs,
    terminal st /\
    (forall t c ns fv ar, In (call_createNote t c ns fv ar) evs ->
       extractContent file = Ok (Some c) /\ trim c <> "") /\
    forall s, world s = w ->
      processSingleFile r file s = (Ok tt, settle file st w' evs s).
Proof.
  intros Hpol.
  destruct (processSingleFile_run r file w) as (res & st & w' & evs & Hres & Hcalls & Hrun).
  destruct res as [[]|e]; [|now destruct Hres as (_ & Hno)].
  now exists st, w', evs.
Qed.

Lemma serviceCalls_app (l1 l2 : list Event) :
  serviceCalls (l1 ++ l2) = (serviceCalls l1 ++ serviceCalls l2)%list.
Proof. apply List.filter_app. Qed.

Lemma extractContent_outside_accept (file : File) :
  includes accept (extensionOf file) = false ->
  extractContent file = Ok None.
Proof.
  unfold includes, accept, extractContent. cbn [existsb].
  intros Hacc.
  repeat (apply orb_false_elim in Hacc as [? Hacc]).
  unfold includes. cbn [existsb].
  repeat match goal with E : String.eqb _ _ = false |- _ => rewrite E; clear E end.
  reflexivity.
Qed.

(** *** The loop over the queue *)

(** One turn of the loop: the file is processed; a rejection leaves the
    loop, anything else goes on with the rest. *)
Lemma importLoop_step (r : Render) (u : User) (file : File) (rest : list File)
    (b : bool) (s : Sys W) :
  r_user r = Some u ->
  importLoop r (file :: rest) b s =
  match processSingleFile r file s with
  | (Ok _, s1) => importLoop r rest (if snapshotIsError r file then false else b) s1
  | (Throw e, s1) => (Throw e, s1)
  end.
Proof. intros Eu. cbn [importLoop]. rewrite Eu. reflexivity. Qed.

Lemma importLoop_cons (r : Render) (u : User) (file : File) (rest : list File)
    (b : bool) (s : Sys W) :
  r_user r = Some u ->
  noNullish [file] ->
  importLoop r (file :: rest) b s =
  importLoop r rest (if snapshotIsError r file then false else b)
    (snd (processSingleFile r file s)).
Proof.
  intros Eu Hpol. rewrite (importLoop_step r u) by exact Eu.
  destruct (processSingleFile_settles r file (world s) Hpol)
    as (st & w' & evs & _ & _ & Hrun).
  now rewrite (Hrun s eq_refl).
Qed.

(** The flag the loop returns is fixed by the render: it reads the
    [fileProgress] of the closure, never the live one. *)
Lemma importLoop_flag (r : Render) (u : User) (queue : list File) (b : bool)
    (s : Sys W) :
  r_user r = Some u ->
  noNullish queue ->
  fst (importLoop r queue b s) =
  Ok (b && forallb (fun f => negb (snapshotIsError r f)) queue).
Proof.
  intros Eu. revert b s.
  induction queue as [|file rest IH]; intros b s Hpol.
  - cbn. now rewrite andb_true_r.
  - apply noNullish_cons in Hpol as (Hfile & Hrest).
    rewrite (importLoop_cons r u) by assumption. rewrite IH by exact Hrest.
    cbn [forallb]. now destruct (snapshotIsError r file), b.
Qed.

Lemma importLoop_app (r : Render) (u : User) (q1 q2 : list File) (b : bool)
    (s : Sys W) :
  r_user r = Some u ->
  noNullish q1 ->
  importLoop r (q1 ++ q2) b s =
  importLoop r q2 (b && forallb (fun f => negb (snapshotIsError r f)) q1)
    (snd (importLoop r q1 b s)).
Proof.
  intros Eu. revert b s.
  induction q1 as [|file rest IH]; intros b s Hpol.
  - cbn. now rewrite andb_true_r.
  - apply noNullish_cons in Hpol as (Hfile & Hrest).
    cbn [app]. rewrite !(importLoop_cons r u) by assumption. rewrite IH by exact Hrest.
    cbn [forallb]. now destruct (snapshotIsError r file), b.
Qed.

Lemma settle_agreeOff (n : string) (file : File) (st : FileStatus) (w : W)
    (evs : list Event) (s1 s2 : Sys W) :
  agreeOff n s1 s2 ->
  agreeOff n (settle file st w evs s1) (settle file st w evs s2).
Proof.
  intros (Hw & Hfp & Hcalls). unfold agreeOff, settle. cbn.
  split; [reflexivity|]. split.
  - intros k Hk. destruct (decide (name file = k)) as [->|Hne].
    + now rewrite !lookup_insert_eq.
    + rewrite !lookup_insert_ne by exact Hne. now apply Hfp.
  - now rewrite !serviceCalls_app, Hcalls.
Qed.

(** Another file's entry does not steer the loop. *)
Lemma importLoop_agreeOff (r : Render) (u : User) (n : string) (queue : list File) :
  r_user r = Some u ->
  noNullish queue ->
  forall b b' (s1 s2 : Sys W),
  agreeOff n s1 s2 ->
  agreeOff n (snd (importLoop r queue b s1)) (snd (importLoop r queue b' s2)).
Proof.
  intros Eu. induction queue as [|file rest IH]; intros Hpol b b' s1 s2 Hagree.
  - exact Hagree.
  - apply noNullish_cons in Hpol as (Hfile & Hrest).
    rewrite !(importLoop_cons r u) by assumption. apply IH; [exact Hrest|].
    destruct (processSingleFile_settles r file (world s1) Hfile)
      as (st & w' & evs & _ & _ & Hrun).
    rewrite (Hrun s1 eq_refl).
    rewrite (Hrun s2) by (symmetry; apply Hagree).
    now apply settle_agreeOff.
Qed.

(** The loop leaves the entries of names that are not in the queue. *)
Lemma importLoop_other (r : Render) (u : User) (n : string) (queue : list File) :
  r_user r = Some u ->
  noNullish queue ->
  ~ In n (map name queue) ->
  forall b (s : Sys W),
  fileProgress (snd (importLoop r queue b s)) !! n = fileProgress s !! n.
Proof.
  intros Eu. induction queue as [|file rest IH]; intros Hpol Hn b s; [reflexivity|].
  apply noNullish_cons in Hpol as (Hfile & Hrest).
  rewrite (importLoop_cons r u) by assumption.
  rewrite IH by (try exact Hrest; intros Hin; apply Hn; now right).
  destruct (processSingleFile_settles r file (world s) Hfile)
    as (st & w' & evs & _ & _ & Hrun).
  rewrite (Hrun s eq_refl). cbn.
  apply lookup_insert_ne. intros E. apply Hn. now left.
Qed.

(** A terminal entry stays terminal through the loop. *)
Lemma importLoop_keeps_terminal (r : Render) (u : User) (n : string)
    (queue : list File) :
  r_user r = Some u ->
  noNullish queue ->
  forall b (s : Sys W),
  (exists st, fileProgress s !! n = Some st /\ terminal st) ->
  exists st, fileProgress (snd (importLoop r queue b s)) !! n = Some st /\ terminal st.
Proof.
  intros Eu. induction queue as [|file rest IH]; intros Hpol b s Hst; [exact Hst|].
  apply noNullish_cons in Hpol as (Hfile & Hrest).
  rewrite (importLoop_cons r u) by assumption. apply IH; [exact Hrest|].
  destruct (processSingleFile_settles r file (world s) Hfile)
    as (st & w' & evs & Hterm & _ & Hrun).
  rewrite (Hrun s eq_refl). cbn.
  destruct (decide (name file = n)) as [->|Hne].
  - exists st. now rewrite lookup_insert_eq.
  - now rewrite lookup_insert_ne.
Qed.

(** With a user in the render and no rejection with [null] or [undefined],
    every file of the queue ends in a terminal status, whatever happens to the
    other files and to the backend. *)
Lemma importLoop_terminal (r : Render) (u : User) (queue : list File) :
  r_user r = Some u ->
  noNullish queue ->
  forall b (s : Sys W) f, In f queue ->
  exists st, fileProgress (snd (importLoop r queue b s)) !! name f = Some st
             /\ terminal st.
Proof.
  intros Eu. induction queue as [|file rest IH]; intros Hpol b s f Hin; [destruct Hin|].
  apply noNullish_cons in Hpol as (Hfile & Hrest).
  rewrite (importLoop_cons r u) by assumption.
  destruct Hin as [->|Hin]; [|now apply IH].
  apply (importLoop_keeps_terminal r u); [exact Eu|exact Hrest|].
  destruct (processSingleFile_settles r f (world s) Hfile)
    as (st & w' & evs & Hterm & _ & Hrun).
  rewrite (Hrun s eq_refl). cbn. exists st. now rewrite lookup_insert_eq.
Qed.

(** *** The claims about one file and about the batch *)

(** C1, amended. In a batch run for a signed-in user in which no other file
    has the display name of file k and no collaborator rejects with [null] or
    [undefined], when the extraction of file k throws: every file of the
    batch ends completed or in error; the entry of file k is error with the
    message of the failure (['Unknown error'] when the failure has none); and
    the entries of the other files, the backend and the service calls are
    those of the batch without file k. *)
Theorem failing_file_is_isolated (r : Render) (u : User) (pre post : list File)
    (fk : File) (e : JsError) (b : bool) (s : Sys W) :
  r_user r = Some u ->
  ~ In (name fk) (map name (pre ++ post)) ->
  noNullish (pre ++ fk :: post) ->
  extractContent fk = Throw e ->
  let after := snd (importLoop r (pre ++ fk :: post) b s) in
  let without := snd (importLoop r (pre ++ post) b s) in
  (forall f, In f (pre ++ fk :: post) ->
     exists st, fileProgress after !! name f = Some st /\ terminal st)
  /\ fileProgress after !! name fk =
       Some {| status := error; message := Some (messageOr e "Unknown error") |}
  /\ (forall f, In f (pre ++ post) ->
        fileProgress after !! name f = fileProgress without !! name f)
  /\ world after = world without
  /\ serviceCalls (log after) = serviceCalls (log without).
Proof.
  intros Eu Hfresh Hpol Ethrow after without.
  pose proof (noNullish_app _ _ Hpol) as (Hpre & Hrest).
  pose proof (noNullish_cons _ _ Hrest) as (Hk & Hpost).
  assert (He : isNullish e = false).
  { destruct Hk as (Hx & _). specialize (Hx fk (or_introl eq_refl)).
    now rewrite Ethrow in Hx. }
  assert (Hkpost : ~ In (name fk) (map name post)).
  { intros Hin. apply Hfresh. rewrite map_app. apply in_or_app. now right. }
  assert (Hother : forall f, In f (pre ++ post) -> name f <> name fk).
  { intros f Hin Heq. apply Hfresh. rewrite <- Heq. now apply in_map. }
  assert (Hagree : agreeOff (name fk) after without).
  { subst after without. rewrite !(importLoop_app r u) by assumption.
    rewrite (importLoop_cons r u) by assumption.
    apply (importLoop_agreeOff r u); [exact Eu|exact Hpost|].
    rewrite (processSingleFile_extraction_throws r fk e _ Ethrow He).
    unfold agreeOff, settle. cbn. split; [reflexivity|]. split.
    - intros k Hne. now apply lookup_insert_ne.
    - rewrite serviceCalls_app. cbn. now rewrite app_nil_r. }
  split; [|split; [|split; [|split]]].
  - intros f Hin. now apply (importLoop_terminal r u).
  - subst after. rewrite (importLoop_app r u) by assumption.
    rewrite (importLoop_cons r u) by assumption.
    rewrite (importLoop_other r u) by assumption.
    rewrite (processSingleFile_extraction_throws r fk e _ Ethrow He). cbn.
    apply lookup_insert_eq.
  - intros f Hin. apply Hagree. now apply Hother.
  - apply Hagree.
  - apply Hagree.
Qed.

(** C6. For a file whose text is not blank: without a user in the render no
    service is called.  With one, [createNote] is called once, with the title,
    the text and the default flags.  When it answers with a non-empty [id],
    [processNoteWithAI] is called next, with that [id], on the backend
    [createNote] left, and the entry follows the outcome of that call.  When
    it answers without an [id], or throws, the entry becomes error and
    [processNoteWithAI] is not called.  Where a call rejects with [null] or
    [undefined], the calls made are the same and the entry stays
    processing. *)
Theorem enrichment_follows_creation (r : Render) (file : File)
    (content : string) (s : Sys W) :
  extractContent file = Ok (Some content) ->
  trim content <> "" ->
  let s' := snd (processSingleFile r file s) in
  let created := call_createNote (titleOf file) content "active" false false in
  match r_user r with
  | None =>
      serviceCalls (log s') = serviceCalls (log s)
      /\ world s' = world s
      /\ fileProgress s' !! name file =
         Some {| status := error;
                 message := Some "User session expired. Please log in again." |}
  | Some _ =>
      match createNote {| title := titleOf file; content := content;
                          note_status := "active"; is_favorite := false;
                          is_archived := false |} (world s) with
      | (Ok (Some nd), w1) =>
          if String.eqb (id nd) "" then
            serviceCalls (log s') = (serviceCalls (log s) ++ [created])%list
            /\ world s' = w1
            /\ fileProgress s' !! name file =
               Some {| status := error;
                       message := Some "Failed to create note entry in the database." |}
          else
            serviceCalls (log s') =
              (serviceCalls (log s) ++ [created; call_processNoteWithAI (id nd)])%list
            /\ world s' = snd (processNoteWithAI (id nd) w1)
            /\ fileProgress s' !! name file =
               Some (match fst (processNoteWithAI (id nd) w1) with
                     | Ok _ => {| status := completed; message := None |}
                     | Throw e =>
                         if isNullish e then {| status := processing; message := None |}
                         else {| status := error;
                                 message := Some (messageOr e "Unknown error") |}
                     end)
      | (Ok None, w1) =>
          serviceCalls (log s') = (serviceCalls (log s) ++ [created])%list
          /\ world s' = w1
          /\ fileProgress s' !! name file =
             Some {| status := error;
                     message := Some "Failed to create note entry in the database." |}
      | (Throw e, w1) =>
          serviceCalls (log s') = (serviceCalls (log s) ++ [created])%list
          /\ world s' = w1
          /\ fileProgress s' !! name file =
             Some (if isNullish e then {| status := processing; message := None |}
                   else {| status := error;
                           message := Some (messageOr e "Unknown error") |})
      end
  end.
Proof.
  intros E Et s' created. subst s' created.
  apply String.eqb_neq in Et.
  destruct s as [fs fp dr ip w lg]. cbn [world log].
  destruct (r_user r) as [u|] eqn:Eu.
  - destruct (createNote _ w) as [[[nd|]|e] w1] eqn:Ec.
    + destruct (String.eqb (id nd) "") eqn:Ei.
      * run; use E; use Et; use Eu; use Ec; use Ei.
        rewrite <- !app_assoc, serviceCalls_app, lookup_insert_eq. now cbn.
      * destruct (processNoteWithAI (id nd) w1) as [[[]|[m| |]] w2] eqn:Ea;
          run; use E; use Et; use Eu; use Ec; use Ei; use Ea;
          rewrite <- ?app_assoc, serviceCalls_app, lookup_insert_eq; now cbn.
    + run; use E; use Et; use Eu; use Ec.
      rewrite <- !app_assoc, serviceCalls_app, lookup_insert_eq. now cbn.
    + destruct e as [m| |]; run; use E; use Et; use Eu; use Ec;
        rewrite <- ?app_assoc, serviceCalls_app, lookup_insert_eq; now cbn.
  - run; use E; use Et; use Eu.
    rewrite <- !app_assoc, serviceCalls_app, lookup_insert_eq. cbn.
    now rewrite app_nil_r.
Qed.

End SingleFile.

(** ** Selecting and dropping files *)

Section Queue.
Import Ui ImportPage.
Context {W : Type}.

Lemma pending_entries_stay (l : list File) (n : string) :
  forall acc : gmap string FileStatus,
  acc !! n = Some pendingStatus ->
  foldl assignPending acc l !! n = Some pendingStatus.
Proof.
  induction l as [|x l IH]; intros acc Hacc; [exact Hacc|].
  cbn [foldl]. apply IH. unfold assignPending.
  destruct (String.eqb (name x) "__proto__"); [exact Hacc|].
  destruct (decide (name x = n)) as [->|Hne].
  - apply lookup_insert_eq.
  - now rewrite lookup_insert_ne.
Qed.

Lemma newFilesWithStatus_lookup (l : list File) (f : File) :
  In f l -> name f <> "__proto__" ->
  newFilesWithStatus l !! name f = Some pendingStatus.
Proof.
  unfold newFilesWithStatus. generalize (∅ : gmap string FileStatus).
  induction l as [|x l IH]; intros acc Hin Hne; [destruct Hin|].
  cbn [foldl]. destruct Hin as [->|Hin]; [|now apply IH].
  apply pending_entries_stay. unfold assignPending.
  apply String.eqb_neq in Hne. rewrite Hne. apply lookup_insert_eq.
Qed.


End Queue.

(** ** Runs on the small backend *)

Section Runs.
Import Ui ImportPage Demo.

(** The small backend rejects with [Error] objects only. *)
Lemma demo_noNullish (queue : list File) :
  (forall f, In f queue -> rejectsNullish (extractContent f) = false) ->
  noNullish queue.
Proof.
  intros Hx. split; [exact Hx|]. split.
  - intros n [[|t] st]; reflexivity.
  - intros noteId [[|t] st]; reflexivity.
Qed.



(** C1, as stated, fails when two files share a name: the first of the two
    throws in extraction, yet the entry under its name ends completed, written
    by the second. *)
Lemma same_name_hides_the_failure :
  let k := pdf "a.pdf" "junk" in
  let j := pdf "a.pdf" "%PDF text" in
  let s0 := handleFileSelect (Some [j]) (handleFileSelect (Some [k])
              (start {| ttl := 9; stored := [] |})) in
  let r := render false s0 in
  r_files r = [k; j]
  /\ extractContent k = Throw (newError "Invalid PDF structure.")
  /\ fileProgress (snd (importLoop r (r_files r) true s0)) !! name k
     = Some {| status := completed; message := None |}.
Proof. vm_compute. repeat split. Qed.

Lemma failing_file_is_isolated_witness :
  let a := txt "a.txt" "one" in
  let k := pdf "b.pdf" "junk" in
  let c := txt "c.txt" "three" in
  let s0 := handleFileSelect (Some [a; k; c]) (start {| ttl := 9; stored := [] |}) in
  let after := snd (importLoop (render false s0) [a; k; c] true s0) in
  let without := snd (importLoop (render false s0) [a; c] true s0) in
  fileProgress after !! "b.pdf"
    = Some {| status := error; message := Some "Invalid PDF structure." |}
  /\ fileProgress after !! "c.txt" = fileProgress without !! "c.txt"
  /\ world after = world without.
Proof.
  intros a k c s0 after without.
  pose proof (failing_file_is_isolated (render false s0) demoUser [a] [c] k
                (newError "Invalid PDF structure.") true s0) as Hthm.
  destruct Hthm as (_ & Hk & Hothers & Hworld & _).
  - reflexivity.
  - cbn. intros [Hin|[Hin|[]]]; discriminate Hin.
  - apply demo_noNullish. intros f [<-|[<-|[<-|[]]]]; reflexivity.
  - reflexivity.
  - split; [exact Hk|]. split; [|exact Hworld].
    apply (Hothers c). right. left. reflexivity.
Defined.

(** The other way a failing file is not contained: an image whose OCR
    request rejects with [undefined].  The [catch] throws on reading the
    message, [processSingleFile] rejects, the entry stays processing, and
    [handleImport] ends there: the file after it is never started, nothing is
    summed up, and the page stays in its processing state. *)
Example undefined_rejection_leaves_the_loop :
  let p := png "p.png" "QUJD" in
  let c := txt "c.txt" "three" in
  let s0 := @handleFileSelect Backend (Some [p; c]) (start {| ttl := 9; stored := [] |}) in
  let r := @render Backend rejectingOcr false s0 in
  let run := @clickImport Backend rejectingOcr false s0 in
  @extractContent Backend rejectingOcr p = Throw Undefined
  /\ fst (@processSingleFile Backend rejectingOcr r p s0)
     = Throw (newError "Cannot read properties of undefined (reading 'message')")
  /\ fst run = Throw (newError "Cannot read properties of undefined (reading 'message')")
  /\ fileProgress (snd run) !! "p.png" = Some processingStatus
  /\ fileProgress (snd run) !! "c.txt" = Some pendingStatus
  /\ files (snd run) = [p; c]
  /\ isProcessing (snd run) = true
  /\ log (snd run) = [console_error "[ImportPage] Error processing file p.png:"].
Proof. vm_compute. repeat split. Qed.

Lemma enrichment_follows_creation_witness :
  let s := start {| ttl := 9; stored := [] |} in
  let s' := snd (processSingleFile (render false s) (txt "note1.txt" "Hello world") s) in
  serviceCalls (log s') =
    [call_createNote "note1" "Hello world" "active" false false;
     call_processNoteWithAI "note-0"]
  /\ fileProgress s' !! "note1.txt" = Some {| status := completed; message := None |}.
Proof.
  intros s s'.
  pose proof (enrichment_follows_creation (render false s)
                (txt "note1.txt" "Hello world") "Hello world" s) as Hthm.
  cbv zeta in Hthm.
  specialize (Hthm eq_refl).
  assert (Hne : trim "Hello world" <> "") by (vm_compute; discriminate).
  specialize (Hthm Hne).
  destruct Hthm as (Hcalls & _ & Hentry).
  split; [exact Hcalls | exact Hentry].
Defined.

(** C4, on the code. A file of an unsupported type, followed by a text
    file: no extractor runs and no note is requested for the first, and the
    loop goes on to the second.  But the warning is a call of [toast.warn],
    which does not exist: it throws, and the [catch] records the entry as
    error with the message of that TypeError and shows an error
    notification.  No warning is shown and the entry never reads
    ['Unsupported type']. *)
Theorem unsupported_type_meets_toast_warn :
  let a := txt "a.xyz" "zz" in
  let n := txt "note1.txt" "Hello world" in
  let s0 := handleFileSelect (Some [a; n]) (start {| ttl := 9; stored := [] |}) in
  let r := render false s0 in
  let s1 := snd (processSingleFile r a s0) in
  let s2 := snd (importLoop r [a; n] true s0) in
  includes accept (extensionOf a) = false
  /\ extractContent a = Ok None
  /\ fst (processSingleFile r a s0) = Ok tt
  /\ fileProgress s1 !! "a.xyz"
     = Some {| status := error; message := Some "toast.warn is not a function" |}
  /\ fileProgress s1 !! "a.xyz"
     <> Some {| status := error; message := Some "Unsupported type" |}
  /\ log s1 =
       [console_error "[ImportPage] Error processing file a.xyz:";
        toast_error "Failed importing a.xyz: toast.warn is not a function"]
  /\ world s1 = world s0
  /\ fileProgress s2 !! "note1.txt" = Some {| status := completed; message := None |}
  /\ serviceCalls (log s2) =
       [call_createNote "note1" "Hello world" "active" false false;
        call_processNoteWithAI "note-0"].
Proof. vm_compute. repeat split. discriminate. Qed.

(** C7, on the code. A text file of white space only: no note is requested,
    but the entry does not end completed with ['No content'].  The warning
    of this branch is a call of [toast.warn], which does not exist: it
    throws, and the [catch] records the entry as error with the message of
    that TypeError and shows an error notification. *)
Theorem blank_text_meets_toast_warn :
  let d := txt "d.md" "  " in
  let s0 := handleFileSelect (Some [d]) (start {| ttl := 9; stored := [] |}) in
  let r := render false s0 in
  let s1 := snd (processSingleFile r d s0) in
  extractContent d = Ok (Some "  ")
  /\ trim "  " = ""
  /\ fst (processSingleFile r d s0) = Ok tt
  /\ fileProgress s1 !! "d.md"
     = Some {| status := error; message := Some "toast.warn is not a function" |}
  /\ fileProgress s1 !! "d.md"
     <> Some {| status := completed; message := Some "No content" |}
  /\ log s1 =
       [console_error "[ImportPage] Error processing file d.md:";
        toast_error "Failed importing d.md: toast.warn is not a function"]
  /\ serviceCalls (log s1) = []
  /\ stored (world s1) = [].
Proof. vm_compute. repeat split. discriminate. Qed.

(** A [.doc] file is accepted by the file input, but no branch of the chain
    extracts it. *)
Example doc_is_not_extracted :
  includes accept (extensionOf (txt "report.DOC" "text")) = true
  /\ extractContent (txt "report.DOC" "text") = Ok None.
Proof. split; reflexivity. Qed.

(** Scenario A: one text file. *)
Example scenario_A :
  let s0 := handleFileSelect (Some [txt "note1.txt" "Hello world"])
              (start {| ttl := 9; stored := [] |}) in
  stored (world (snd (clickImport false s0))) =
    [{| title := "note1"; content := "Hello world"; note_status := "active";
        is_favorite := false; is_archived := false |}].
Proof. reflexivity. Qed.

(** The effect after a render without a user. *)
Example authEffect_redirects :
  log (snd (authEffect {| r_files := []; r_fileProgress := ∅; r_user := None;
                          r_authLoading := false |}
              (start {| ttl := 0; stored := [] |}))) =
  [toast_error "Your session has expired. Please log in again."; navigate "/login"].
Proof. reflexivity. Qed.

(** C2, on the code. The session is there when Import is pressed and gone
    once the first file is done; the closure still holds the user of its
    render, so the loop goes on: the second and third files are processed
    (their notes are requested and refused), no session notice of the loop is
    raised, and the handler navigates to the dashboard. *)
Theorem session_loss_is_not_noticed :
  let a := txt "a.txt" "one" in
  let b := txt "b.txt" "two" in
  let c := txt "c.txt" "three" in
  let s0 := handleFileSelect (Some [a; b; c]) (start {| ttl := 2; stored := [] |}) in
  let r := render false s0 in
  let s1 := snd (processSingleFile r a s0) in
  let s3 := snd (importLoop r [a; b; c] true s0) in
  r_user r = Some demoUser
  /\ fileProgress s1 !! "a.txt" = Some {| status := completed; message := None |}
  /\ session (world s1) = None
  /\ fileProgress s3 !! "b.txt" = Some {| status := error; message := Some "JWT expired" |}
  /\ fileProgress s3 !! "c.txt" = Some {| status := error; message := Some "JWT expired" |}
  /\ serviceCalls (log s3) =
       [call_createNote "a" "one" "active" false false;
        call_processNoteWithAI "note-0";
        call_createNote "b" "two" "active" false false;
        call_createNote "c" "three" "active" false false]
  /\ log (snd (clickImport false s0)) =
       [console_log "[ImportPage] Creating note for: a";
        call_createNote "a" "one" "active" false false;
        console_log "[ImportPage] Processing note with AI: note-0";
        call_processNoteWithAI "note-0";
        toast_success "Successfully imported and processed: a.txt";
        console_log "[ImportPage] Creating note for: b";
        call_createNote "b" "two" "active" false false;
        console_error "[ImportPage] Error processing file b.txt:";
        toast_error "Failed importing b.txt: JWT expired";
        console_log "[ImportPage] Creating note for: c";
        call_createNote "c" "three" "active" false false;
        console_error "[ImportPage] Error processing file c.txt:";
        toast_error "Failed importing c.txt: JWT expired";
        invalidateQueries "tags"; invalidateQueries "notes";
        toast_success "All 3 selected files processed!";
        navigate "/app"].
Proof. vm_compute. repeat split. Qed.

(** C3, on the code. One file that is not a PDF under a [.pdf] name: its
    extraction throws, its entry ends in error, and the summary is the one of
    full success, because the loop reads the entry of the render, which is
    still pending. *)
Theorem summary_overlooks_errors :
  let s0 := handleFileSelect (Some [pdf "b.pdf" "junk"])
              (start {| ttl := 9; stored := [] |}) in
  let r := render false s0 in
  r_fileProgress r !! "b.pdf" = Some pendingStatus
  /\ fileProgress (snd (importLoop r (r_files r) true s0)) !! "b.pdf"
     = Some {| status := error; message := Some "Invalid PDF structure." |}
  /\ fst (importLoop r (r_files r) true s0) = Ok true
  /\ log (snd (clickImport false s0)) =
       [console_error "[ImportPage] Error processing file b.pdf:";
        toast_error "Failed importing b.pdf: Invalid PDF structure.";
        invalidateQueries "tags"; invalidateQueries "notes";
        toast_success "All 1 selected files processed!";
        navigate "/app"].
Proof. vm_compute. repeat split. Qed.

End Runs.

(** ** The favorite toggle *)

Section Favorites.
Import Ui Dashboard.

Lemma withFavorite_back (v : bool) (note : Note) :
  is_favorite note = v -> withFavorite v (withFavorite (negb v) note) = note.
Proof. destruct note as [i t c f]. cbn. now intros ->. Qed.

(** The flag part of the rollback: when the cached notes of that id carry the
    value the caller passed, the ['notes'] cache is back where it was. *)
Lemma rollback_restores_flags (noteId : string) (currentIsFavorite : bool)
    (c : QueryCache) :
  (forall l note, notes c = Some l -> In note l -> id note = noteId ->
                  is_favorite note = currentIsFavorite) ->
  notes (rollback noteId currentIsFavorite
           (optimisticUpdate noteId currentIsFavorite c)) = notes c.
Proof.
  intros Hflag. unfold rollback, optimisticUpdate, updateFavorites, markNotes.
  cbn [notes favorite_notes].
  destruct (notes c) as [l|] eqn:El; [|reflexivity].
  cbn [option_map]. f_equal. rewrite map_map.
  rewrite <- (map_id l) at 2. apply map_ext_in.
  intros note Hin.
  destruct (String.eqb (id note) noteId) eqn:Eid.
  - cbn [withFavorite id]. rewrite Eid.
    apply withFavorite_back. apply (Hflag l note eq_refl Hin).
    now apply String.eqb_eq.
  - now rewrite Eid.
Qed.

(** C8, on the code. Two favorites, the first is un-favorited and the request
    answers [false]: the flags of ['notes'] are back, but the favorites
    collection comes back in another order, the note re-added at the end. *)
Theorem rollback_moves_the_favorite :
  let a := {| id := "a"; title := "A"; content := "x"; is_favorite := true |} in
  let b := {| id := "b"; title := "B"; content := "y"; is_favorite := true |} in
  let before := {| notes := Some [a; b]; favorite_notes := Some [a; b] |} in
  let s := {| cache := before; log := [] |} in
  optimisticUpdate "a" true before =
    {| notes := Some [withFavorite false a; b]; favorite_notes := Some [b] |}
  /\ cache (snd (handleToggleFavorite (fun _ _ => Ok false) "a" true s)) =
       {| notes := Some [a; b]; favorite_notes := Some [b; a] |}
  /\ cache (snd (handleToggleFavorite (fun _ _ => Ok false) "a" true s)) <> before.
Proof. vm_compute. repeat split. discriminate. Qed.

(** With no ['notes'] data to copy from, the note does not come back at
    all. *)
Example rollback_loses_the_favorite :
  let a := {| id := "a"; title := "A"; content := "x"; is_favorite := true |} in
  let s := {| cache := {| notes := None; favorite_notes := Some [a] |}; log := [] |} in
  cache (snd (handleToggleFavorite (fun _ _ => Ok false) "a" true s)) =
    {| notes := None; favorite_notes := Some [] |}.
Proof. reflexivity. Qed.

End Favorites.

(** ** More on the queue *)

Section QueueMore.
Import Ui ImportPage.
Context {W : Type}.

Lemma foldl_pending_other (l : list File) (n : string) :
  ~ In n (map name l) ->
  forall acc : gmap string FileStatus,
  foldl assignPending acc l !! n = acc !! n.
Proof.
  induction l as [|x l IH]; intros Hn acc; [reflexivity|].
  cbn [foldl]. rewrite IH by (intros Hin; apply Hn; now right).
  unfold assignPending. destruct (String.eqb (name x) "__proto__"); [reflexivity|].
  apply lookup_insert_ne. intros E. apply Hn. now left.
Qed.

Lemma foldl_pending_proto (l : list File) :
  forall acc : gmap string FileStatus,
  foldl assignPending acc l !! "__proto__" = acc !! "__proto__".
Proof.
  induction l as [|x l IH]; intros acc; [reflexivity|].
  cbn [foldl]. rewrite IH. unfold assignPending.
  destruct (String.eqb (name x) "__proto__") eqn:E; [reflexivity|].
  apply lookup_insert_ne. now apply String.eqb_neq in E.
Qed.

Lemma newFilesWithStatus_None (l : list File) (n : string) :
  ~ In n (map name l) -> newFilesWithStatus l !! n = None.
Proof.
  intros Hn. unfold newFilesWithStatus.
  rewrite foldl_pending_other by exact Hn. apply lookup_empty.
Qed.

(** No selection writes an entry under [__proto__]. *)
Lemma newFilesWithStatus_proto (l : list File) :
  newFilesWithStatus l !! "__proto__" = None.
Proof.
  unfold newFilesWithStatus. rewrite foldl_pending_proto. apply lookup_empty.
Qed.

Lemma newFilesWithStatus_Some (l : list File) (n : string) :
  In n (map name l) -> n <> "__proto__" ->
  newFilesWithStatus l !! n = Some pendingStatus.
Proof.
  intros Hin Hne. apply in_map_iff in Hin as (f & <- & Hf).
  now apply newFilesWithStatus_lookup.
Qed.

Lemma newFilesWithStatus_is_Some (l : list File) (n : string) :
  is_Some (newFilesWithStatus l !! n) <-> In n (map name l) /\ n <> "__proto__".
Proof.
  split.
  - intros [st Hst]. split.
    + destruct (in_dec string_dec n (map name l)) as [Hin|Hn]; [exact Hin|].
      rewrite newFilesWithStatus_None in Hst by exact Hn. discriminate Hst.
    + intros ->. rewrite newFilesWithStatus_proto in Hst. discriminate Hst.
  - intros [Hin Hne]. rewrite newFilesWithStatus_Some by assumption. now eexists.
Qed.

Lemma names_after_remove (n k : string) (l : list File) :
  In k (map name (List.filter (fun f => negb (String.eqb (name f) n)) l))
  <-> k <> n /\ In k (map name l).
Proof.
  rewrite !in_map_iff. split.
  - intros (f & <- & Hf). apply List.filter_In in Hf as (Hf & Hne).
    apply negb_true_iff, String.eqb_neq in Hne. split; [exact Hne|]. now exists f.
  - intros (Hne & f & <- & Hf). exists f. split; [reflexivity|].
    apply List.filter_In. split; [exact Hf|].
    now apply negb_true_iff, String.eqb_neq.
Qed.

(** A selection and a drop of files none of which is named [__proto__], and
    a removal, keep the queue and the status map on the same names; and
    after any selection or drop, every entry of the map still names a queued
    file. *)
Theorem queue_actions_keep_names (s : Sys W) :
  namesMatch s ->
  (forall l, ~ In "__proto__" (map name l) ->
     namesMatch (handleFileSelect (Some l) s) /\ namesMatch (handleDrop (Some l) s))
  /\ namesMatch (handleFileSelect None s)
  /\ namesMatch (handleDrop None s)
  /\ (forall n, namesMatch (removeFile n s))
  /\ (forall o n,
        (is_Some (fileProgress (handleFileSelect o s) !! n) ->
         In n (map name (files (handleFileSelect o s))))
        /\ (is_Some (fileProgress (handleDrop o s) !! n) ->
            In n (map name (files (handleDrop o s))))).
Proof.
  intros Hs.
  assert (Hadd : forall l n,
            is_Some ((newFilesWithStatus l ∪ fileProgress s) !! n)
            -> In n (map name (files s ++ l))).
  { intros l n. rewrite lookup_union_is_Some, newFilesWithStatus_is_Some, (Hs n).
    rewrite map_app, in_app_iff. tauto. }
  assert (Hback : forall l n,
            ~ In "__proto__" (map name l) ->
            In n (map name (files s ++ l)) ->
            is_Some ((newFilesWithStatus l ∪ fileProgress s) !! n)).
  { intros l n Hl. rewrite lookup_union_is_Some, newFilesWithStatus_is_Some, (Hs n).
    rewrite map_app, in_app_iff. intros [Hin|Hin]; [now right|left].
    split; [exact Hin|]. intros ->. now apply Hl. }
  split; [|split; [|split; [|split]]].
  - intros l Hl. split; intros n; (split; [apply Hadd | now apply Hback]).
  - exact Hs.
  - intros n. destruct s. apply (Hs n).
  - intros n k. unfold removeFile. cbn.
    rewrite lookup_delete_is_Some, names_after_remove, (Hs k).
    split; intros [Hne Hin]; (split; [congruence | exact Hin]).
  - intros [l|] n; split; try apply Hadd; destruct s; apply (Hs n).
Qed.

(** Removing a name takes every queued file of that name off the queue,
    keeps the other files in their order, drops the entry of the name and
    leaves the other entries. *)
Theorem removeFile_removes_every_namesake (n : string) (s : Sys W) :
  ~ In n (map name (files (removeFile n s)))
  /\ fileProgress (removeFile n s) !! n = None
  /\ files (removeFile n s)
     = List.filter (fun f => negb (String.eqb (name f) n)) (files s)
  /\ (forall f, In f (files s) -> name f <> n -> In f (files (removeFile n s)))
  /\ (forall k, k <> n -> fileProgress (removeFile n s) !! k = fileProgress s !! k).
Proof.
  unfold removeFile. cbn. split; [|split; [|split; [|split]]].
  - rewrite names_after_remove. intros [Hne _]. now apply Hne.
  - apply lookup_delete_eq.
  - reflexivity.
  - intros f Hf Hne. apply List.filter_In. split; [exact Hf|].
    now apply negb_true_iff, String.eqb_neq.
  - intros k Hne. now apply lookup_delete_ne.
Qed.

Lemma newFilesWithStatus_app (a b : list File) :
  newFilesWithStatus (a ++ b)%list = newFilesWithStatus b ∪ newFilesWithStatus a.
Proof.
  apply map_eq. intros n.
  destruct (decide (n = "__proto__")) as [->|Hne].
  { rewrite lookup_union_r by apply newFilesWithStatus_proto.
    now rewrite !newFilesWithStatus_proto. }
  destruct (in_dec string_dec n (map name b)) as [Hb|Hb].
  - rewrite newFilesWithStatus_Some
      by (try exact Hne; rewrite map_app; apply in_or_app; now right).
    symmetry. apply lookup_union_Some_l. now apply newFilesWithStatus_Some.
  - rewrite lookup_union_r by (now apply newFilesWithStatus_None).
    destruct (in_dec string_dec n (map name a)) as [Ha|Ha].
    + rewrite !newFilesWithStatus_Some; [reflexivity|exact Ha|exact Hne| |exact Hne].
      rewrite map_app. apply in_or_app. now left.
    + rewrite !newFilesWithStatus_None; [reflexivity|exact Ha|].
      rewrite map_app, in_app_iff. tauto.
Qed.

(** Two selections in a row leave the page as one selection of both lists
    does; the same holds for a selection followed by a drop, up to the
    dragging flag. *)
Theorem selections_compose (a b : list File) (s : Sys W) :
  handleFileSelect (Some b) (handleFileSelect (Some a) s)
  = handleFileSelect (Some (a ++ b)%list) s
  /\ handleDrop (Some b) (handleFileSelect (Some a) s)
     = handleDrop (Some (a ++ b)%list) s.
Proof.
  destruct s as [fs fp dr ip w lg].
  unfold handleFileSelect, handleDrop, setFileProgress, setFiles, setDragging.
  cbn. rewrite newFilesWithStatus_app, <- (assoc_L (∪)), <- app_assoc.
  split; reflexivity.
Qed.

(** Selecting one file whose name is new to the page and removing it again
    gives the page back. *)
Theorem select_then_remove (f : File) (s : Sys W) :
  ~ In (name f) (map name (files s)) ->
  fileProgress s !! name f = None ->
  removeFile (name f) (handleFileSelect (Some [f]) s) = s.
Proof.
  intros Hfresh Hentry. destruct s as [fs fp dr ip w lg].
  unfold removeFile, handleFileSelect, setFileProgress, setFiles. cbn in *.
  f_equal.
  - rewrite List.filter_app. cbn. rewrite String.eqb_refl. cbn.
    rewrite app_nil_r. apply forallb_filter_id. apply forallb_forall.
    intros g Hg. apply negb_true_iff, String.eqb_neq.
    intros E. apply Hfresh. rewrite <- E. now apply in_map.
  - unfold newFilesWithStatus, assignPending. cbn.
    destruct (String.eqb (name f) "__proto__").
    + rewrite (left_id_L ∅ (∪)). now apply delete_id.
    + rewrite <- insert_union_l, (left_id_L ∅ (∪)), delete_insert_eq.
      now apply delete_id.
Qed.

End QueueMore.

Section QueueRuns.
Import Ui ImportPage.

Lemma queue_actions_keep_names_witness :
  is_Some
    (fileProgress
       (removeFile "a.txt"
          (handleFileSelect (Some [Demo.txt "a.txt" "x"; Demo.txt "b.txt" "y"])
             (Demo.start {| Demo.ttl := 0; Demo.stored := [] |}))) !! "b.txt")
  <-> In "b.txt"
        (map name
           (files
              (removeFile "a.txt"
                 (handleFileSelect (Some [Demo.txt "a.txt" "x"; Demo.txt "b.txt" "y"])
                    (Demo.start {| Demo.ttl := 0; Demo.stored := [] |}))))).
Proof.
  assert (H0 : namesMatch (Demo.start {| Demo.ttl := 0; Demo.stored := [] |})).
  { intros n. cbn. rewrite lookup_empty.
    split; [intros [? ?]; discriminate | intros []]. }
  destruct (queue_actions_keep_names _ H0) as (Hselect & _).
  destruct (Hselect [Demo.txt "a.txt" "x"; Demo.txt "b.txt" "y"]) as (Hselected & _).
  { cbn. intros [Hin|[Hin|[]]]; discriminate Hin. }
  destruct (queue_actions_keep_names _ Hselected) as (_ & _ & _ & Hremove & _).
  exact (Hremove "a.txt" "b.txt").
Defined.

Lemma select_then_remove_witness :
  removeFile "a.txt"
    (handleFileSelect (Some [Demo.txt "a.txt" "x"])
       (Demo.start {| Demo.ttl := 0; Demo.stored := [] |}))
  = Demo.start {| Demo.ttl := 0; Demo.stored := [] |}.
Proof.
  apply (select_then_remove (Demo.txt "a.txt" "x")
           (Demo.start {| Demo.ttl := 0; Demo.stored := [] |})).
  - intros [].
  - reflexivity.
Defined.

End QueueRuns.

(** ** More on processing and on the import run *)

Section ImportMore.
Import Ui ImportPage.
Context {W : Type} `{Services W}.

Ltac exec :=
  cbv [processSingleFile setStatus toastWarn bind tryCatch act liftResult throw call
       ret emit setFileProgress setWorld settle fst snd isNullish cannotReadMessage
       newError
       files fileProgress dragging isProcessing world log].

Tactic Notation "via" constr(E) := rewrite E; exec.

Ltac shape :=
  rewrite <- ?app_assoc; eexists; split; [reflexivity|];
  cbn [app serviceCalls List.filter isServiceCall];
  first [ left; reflexivity
        | right; left; eexists; split; [reflexivity|]; split; [eassumption|]; reflexivity
        | right; right; do 2 eexists; split; [reflexivity|]; split; [eassumption|];
          reflexivity ].

(** What one file adds to the log: no service call, or one [createNote], or
    one [createNote] followed by one [processNoteWithAI]; the note has the
    title of the file, its extracted text, and the default flags. *)
Lemma processSingleFile_calls (r : Render) (file : File) (s : Sys W) :
  exists evs,
    log (snd (processSingleFile r file s)) = (log s ++ evs)%list
    /\ (serviceCalls evs = []
        \/ (exists content,
              extractContent file = Ok (Some content) /\ trim content <> ""
              /\ serviceCalls evs =
                 [call_createNote (titleOf file) content "active" false false])
        \/ (exists content noteId,
              extractContent file = Ok (Some content) /\ trim content <> ""
              /\ serviceCalls evs =
                 [call_createNote (titleOf file) content "active" false false;
                  call_processNoteWithAI noteId])).
Proof.
  destruct s as [fs fp dr ip w lg].
  destruct (extractContent file) as [[content|]|e] eqn:E.
  - destruct (String.eqb (trim content) "") eqn:Et.
    + exec; rewrite E; exec; rewrite Et; exec. shape.
    + assert (Hne : trim content <> "") by now apply String.eqb_neq.
      destruct (r_user r) as [u|] eqn:Eu.
      * destruct (createNote
                    {| title := titleOf file; content := content;
                       note_status := "active"; is_favorite := false;
                       is_archived := false |} w) as [[[nd|]|e] w1] eqn:Ec.
        -- destruct (String.eqb (id nd) "") eqn:Ei.
           ++ exec; rewrite E; exec; rewrite Et; exec; rewrite Eu; exec.
              via Ec. via Ei. shape.
           ++ destruct (processNoteWithAI (id nd) w1) as [[[]|[m| |]] w2] eqn:Ea;
                exec; rewrite E; exec; rewrite Et; exec; rewrite Eu; exec;
                via Ec; via Ei; via Ea; shape.
        -- exec; rewrite E; exec; rewrite Et; exec; rewrite Eu; exec. via Ec. shape.
        -- destruct e as [m| |];
             exec; rewrite E; exec; rewrite Et; exec; rewrite Eu; exec; via Ec; shape.
      * exec; rewrite E; exec; rewrite Et; exec; rewrite Eu; exec. shape.
  - exec; rewrite E; exec. shape.
  - destruct e as [m| |]; exec; rewrite E; exec; shape.
Qed.


Lemma notesRequested_app (l1 l2 : list Event) :
  notesRequested (l1 ++ l2) = notesRequested l1 + notesRequested l2.
Proof. unfold notesRequested. now rewrite List.filter_app, length_app. Qed.

Lemma enrichmentsRequested_app (l1 l2 : list Event) :
  enrichmentsRequested (l1 ++ l2) = enrichmentsRequested l1 + enrichmentsRequested l2.
Proof. unfold enrichmentsRequested. now rewrite List.filter_app, length_app. Qed.

Lemma notesRequested_serviceCalls (l : list Event) :
  notesRequested (serviceCalls l) = notesRequested l.
Proof.
  unfold notesRequested, serviceCalls.
  induction l as [|e l IH]; [reflexivity|].
  destruct e; cbn; rewrite ?IH; try reflexivity; cbn in IH; now rewrite IH.
Qed.

Lemma enrichmentsRequested_serviceCalls (l : list Event) :
  enrichmentsRequested (serviceCalls l) = enrichmentsRequested l.
Proof.
  unfold enrichmentsRequested, serviceCalls.
  induction l as [|e l IH]; [reflexivity|].
  destruct e; cbn; rewrite ?IH; try reflexivity; cbn in IH; now rewrite IH.
Qed.

Lemma processSingleFile_counts (r : Render) (file : File) (s : Sys W) :
  exists c a,
    notesRequested (log (snd (processSingleFile r file s))) = notesRequested (log s) + c
    /\ enrichmentsRequested (log (snd (processSingleFile r file s)))
       = enrichmentsRequested (log s) + a
    /\ a <= c /\ c <= 1.
Proof.
  destruct (processSingleFile_calls r file s) as (evs & -> & Hshape).
  rewrite notesRequested_app, enrichmentsRequested_app.
  rewrite <- (notesRequested_serviceCalls evs), <- (enrichmentsRequested_serviceCalls evs).
  destruct Hshape as [->|[(content & _ & _ & ->)|(content & noteId & _ & _ & ->)]].
  - exists 0, 0. cbn. lia.
  - exists 1, 0. cbn. lia.
  - exists 1, 1. cbn. lia.
Qed.

(** The loop leaves the queue and the flags of the page, whether it returns
    or rejects. *)
Lemma importLoop_frame (r : Render) (queue : list File) :
  forall b (s : Sys W),
  files (snd (importLoop r queue b s)) = files s
  /\ dragging (snd (importLoop r queue b s)) = dragging s
  /\ isProcessing (snd (importLoop r queue b s)) = isProcessing s.
Proof.
  induction queue as [|file rest IH]; intros b s.
  - repeat split.
  - destruct (r_user r) as [u|] eqn:Eu.
    + rewrite (importLoop_step r u) by exact Eu.
      destruct (processSingleFile_run r file (world s))
        as (res & st & w' & evs & _ & _ & Hrun).
      rewrite (Hrun s eq_refl). destruct res as [[]|e]; [|repeat split].
      destruct (IH (if snapshotIsError r file then false else b)
                   (settle file st w' evs s)) as (Hf & Hd & Hp).
      rewrite Hf, Hd, Hp. repeat split.
    + cbn [importLoop]. rewrite Eu. destruct s. repeat split.
Qed.

(** Without a user in the render the loop returns at once: it calls no
    service and writes no entry. *)
Lemma importLoop_no_user (r : Render) (queue : list File) :
  r_user r = None ->
  forall b (s : Sys W),
  exists b' s',
    importLoop r queue b s = (Ok b', s')
    /\ world s' = world s /\ fileProgress s' = fileProgress s
    /\ serviceCalls (log s') = serviceCalls (log s).
Proof.
  intros Eu b s. destruct queue as [|file rest].
  - exists b, s. repeat split.
  - cbn [importLoop]. rewrite Eu. destruct s as [fs fp dr ip w lg].
    cbv [bind act ret emit]. do 2 eexists. split; [reflexivity|]. cbn.
    repeat split. rewrite serviceCalls_app. cbn. now rewrite app_nil_r.
Qed.

(** One run of the loop requests at most one note per queued file, and never
    more enrichments than notes. *)
Theorem at_most_one_note_per_file (r : Render) (queue : list File) :
  forall b (s : Sys W),
  exists c a,
    notesRequested (log (snd (importLoop r queue b s))) = notesRequested (log s) + c
    /\ enrichmentsRequested (log (snd (importLoop r queue b s)))
       = enrichmentsRequested (log s) + a
    /\ a <= c /\ c <= length queue.
Proof.
  destruct (r_user r) as [u|] eqn:Eu.
  - induction queue as [|file rest IH]; intros b s.
    + exists 0, 0. cbn. lia.
    + rewrite (importLoop_step r u) by exact Eu.
      destruct (processSingleFile_counts r file s) as (c1 & a1 & Hc1 & Ha1 & Hac1 & Hle1).
      destruct (processSingleFile r file s) as [[[]|e] s1]; cbn [snd] in Hc1, Ha1.
      * destruct (IH (if snapshotIsError r file then false else b) s1)
          as (c & a & -> & -> & Hac & Hc).
        rewrite Hc1, Ha1. exists (c1 + c), (a1 + a). cbn [length]. lia.
      * cbn [snd]. rewrite Hc1, Ha1. exists c1, a1. cbn [length]. lia.
  - intros b s.
    destruct (importLoop_no_user r queue Eu b s) as (b' & s' & E & _ & _ & Hcalls).
    rewrite E. cbn [snd]. exists 0, 0.
    rewrite <- (notesRequested_serviceCalls (log s')),
            <- (enrichmentsRequested_serviceCalls (log s')), Hcalls,
            notesRequested_serviceCalls, enrichmentsRequested_serviceCalls.
    lia.
Qed.

(** Every note the loop requests is titled after a file of the queue, holds
    the text extracted from that file, which is not blank, and is created
    active, not favorite, not archived. *)
Theorem notes_come_from_queued_files (r : Render) (queue : list File)
    (t c ns : string) (fv ar : bool) :
  forall b (s : Sys W),
  In (call_createNote t c ns fv ar) (log (snd (importLoop r queue b s))) ->
  In (call_createNote t c ns fv ar) (log s)
  \/ exists f, In f queue /\ t = titleOf f /\ extractContent f = Ok (Some c)
               /\ trim c <> "" /\ ns = "active" /\ fv = false /\ ar = false.
Proof.
  destruct (r_user r) as [u|] eqn:Eu.
  - induction queue as [|file rest IH]; intros b s Hin; [now left|].
    rewrite (importLoop_step r u) in Hin by exact Eu.
    assert (Hfile : In (call_createNote t c ns fv ar)
                       (log (snd (processSingleFile r file s))) ->
                    In (call_createNote t c ns fv ar) (log s)
                    \/ exists f, In f (file :: rest) /\ t = titleOf f
                         /\ extractContent f = Ok (Some c)
                         /\ trim c <> "" /\ ns = "active" /\ fv = false /\ ar = false).
    { intros Hlogged.
      destruct (processSingleFile_calls r file s) as (evs & Hlog & Hshape).
      rewrite Hlog in Hlogged.
      apply in_app_or in Hlogged as [Hlogged|Hlogged]; [now left|right].
      assert (Hcall : In (call_createNote t c ns fv ar) (serviceCalls evs)).
      { apply List.filter_In. now split. }
      exists file. split; [now left|].
      destruct Hshape as [E|[(content & Hex & Hne & E)|(content & noteId & Hex & Hne & E)]];
        rewrite E in Hcall.
      + destruct Hcall.
      + destruct Hcall as [Heq|[]]. injection Heq as <- <- <- <- <-. now repeat split.
      + destruct Hcall as [Heq|[Heq|[]]]; [|discriminate Heq].
        injection Heq as <- <- <- <- <-. now repeat split. }
    destruct (processSingleFile r file s) as [[[]|e] s1]; cbn [snd] in Hfile, Hin.
    + apply IH in Hin as [Hin|(f & Hf & Hrest)]; [now apply Hfile|].
      right. exists f. split; [now right | exact Hrest].
    + now apply Hfile.
  - intros b s Hin. left.
    destruct (importLoop_no_user r queue Eu b s) as (b' & s' & E & _ & _ & Hcalls).
    rewrite E in Hin. cbn [snd] in Hin.
    assert (Hcall : In (call_createNote t c ns fv ar) (serviceCalls (log s'))).
    { apply List.filter_In. now split. }
    rewrite Hcalls in Hcall. now apply List.filter_In in Hcall.
Qed.

(** [handleImport] for a render with a user and a non-empty queue, when no
    collaborator rejects with [null] or [undefined]: it returns normally; the
    queue and the status map end empty and the page idle; the log of the
    loop is followed by the two invalidations, the summary and the navigation
    to the dashboard; and the summary is the one of success exactly when no
    queued file had an error entry in the render. *)
Theorem handleImport_with_user (r : Render) (u : User) (s : Sys W) :
  r_user r = Some u ->
  r_files r <> [] ->
  noNullish (r_files r) ->
  let s1 := snd (importLoop r (r_files r) true (setIsProcessing true s)) in
  handleImport r s =
  (Ok tt,
   {| files := []; fileProgress := ∅; dragging := dragging s;
      isProcessing := false; world := world s1;
      log := (log s1 ++
              [invalidateQueries "tags"; invalidateQueries "notes";
               if forallb (fun f => negb (snapshotIsError r f)) (r_files r)
               then toast_success
                      ("All " ++ pretty (length (r_files r)) ++ " selected files processed!")
               else toast_info
                      "File processing finished. Check notifications for details on any errors.";
               navigate "/app"])%list |}).
Proof.
  intros Eu Hne Hpol s1. subst s1. unfold handleImport.
  destruct s as [fs fp dr ip w lg].
  destruct (r_files r) as [|f0 rest] eqn:Ef; [congruence|].
  cbn [length Nat.eqb]. rewrite Eu.
  replace (bool_decide (is_Some (Some u))) with true
    by (symmetry; apply bool_decide_eq_true; now eexists).
  cbn [negb andb]. unfold bind at 1. unfold act at 1.
  set (s0 := setIsProcessing true _).
  pose proof (importLoop_flag r u (f0 :: rest) true s0 Eu Hpol) as Hflag.
  pose proof (importLoop_frame r (f0 :: rest) true s0) as (_ & Hd & _).
  unfold bind at 1.
  destruct (importLoop r (f0 :: rest) true s0) as [[b'|e] s'];
    cbn [fst snd] in *; [|discriminate Hflag].
  injection Hflag as ->. cbn [forallb].
  set (ok := (negb (snapshotIsError r f0) && forallb _ rest)%bool).
  unfold finishImport. rewrite Eu, Ef.
  destruct s' as [fs' fp' dr' ip' w' lg']. cbn in Hd. subst dr'.
  cbn [length Nat.ltb Nat.leb]. rewrite andb_true_r.
  destruct ok;
    cbv [bind act ret emit setIsProcessing setFiles setFileProgress
         files fileProgress dragging isProcessing world log];
    rewrite <- !app_assoc; reflexivity.
Qed.

(** [handleImport] for a render without a user: it returns normally, calls no
    service, leaves the backend, and marks no file: every entry left on the
    page was there before. *)
Theorem handleImport_without_user (r : Render) (s : Sys W) :
  r_user r = None ->
  fst (handleImport r s) = Ok tt
  /\ world (snd (handleImport r s)) = world s
  /\ serviceCalls (log (snd (handleImport r s))) = serviceCalls (log s)
  /\ (forall n st, fileProgress (snd (handleImport r s)) !! n = Some st ->
                   fileProgress s !! n = Some st).
Proof.
  intros Eu. unfold handleImport. rewrite Eu.
  replace (bool_decide (is_Some (@None User))) with false
    by (symmetry; apply bool_decide_eq_false; intros [? ?]; discriminate).
  cbn [negb andb].
  destruct (length (r_files r) =? 0)%nat eqn:El.
  - destruct s as [fs fp dr ip w lg]. cbv [act emit fst snd world log fileProgress].
    rewrite serviceCalls_app. cbn. rewrite app_nil_r. now repeat split.
  - destruct (r_authLoading r); cbn [negb].
    + cbv [bind act].
      destruct (importLoop_no_user r (r_files r) Eu true (setIsProcessing true s))
        as (b' & s' & E & Hw & _ & Hcalls).
      rewrite E. unfold finishImport. rewrite Eu.
      destruct s' as [fs' fp' dr' ip' w' lg'].
      destruct s as [fs fp dr ip w lg].
      unfold setIsProcessing in Hw, Hcalls. cbn [world log] in Hw, Hcalls. subst w'.
      destruct (b' && (0 <? length (r_files r))%nat);
        [| destruct (0 <? length (r_files r))%nat ];
        cbv [bind act ret emit setIsProcessing setFiles setFileProgress
             fst snd files fileProgress dragging isProcessing world log];
        rewrite !serviceCalls_app, Hcalls; cbn; rewrite ?app_nil_r;
        (repeat split; try reflexivity);
        intros n st Hn; rewrite lookup_empty in Hn; discriminate Hn.
    + destruct s as [fs fp dr ip w lg].
      cbv [bind act emit fst snd world log fileProgress].
      rewrite !serviceCalls_app. cbn. rewrite !app_nil_r. now repeat split.
Qed.

Lemma settle_keeps_names (file : File) (st : FileStatus) (w : W) (evs : list Event)
    (s : Sys W) :
  namesMatch s -> In file (files s) -> namesMatch (settle file st w evs s).
Proof.
  intros Hs Hfile n. cbn. rewrite lookup_insert_is_Some, (Hs n). split.
  - intros [<-|[_ Hin]]; [now apply in_map | exact Hin].
  - intros Hin. destruct (decide (name file = n)); [now left | now right].
Qed.

(** The loop over files of the queue keeps the queue and the status map on
    the same names, at every point where it can end. *)
Lemma importLoop_keeps_names (r : Render) (queue : list File) :
  forall b (s : Sys W),
  namesMatch s ->
  (forall f, In f queue -> In f (files s)) ->
  namesMatch (snd (importLoop r queue b s)).
Proof.
  induction queue as [|file rest IH]; intros b s Hs Hqueue; [exact Hs|].
  destruct (r_user r) as [u|] eqn:Eu.
  - rewrite (importLoop_step r u) by exact Eu.
    destruct (processSingleFile_run r file (world s))
      as (res & st & w' & evs & _ & _ & Hrun).
    rewrite (Hrun s eq_refl).
    assert (Hsettled : namesMatch (settle file st w' evs s)).
    { apply settle_keeps_names; [exact Hs | apply Hqueue; now left]. }
    destruct res as [[]|e]; [|exact Hsettled].
    apply IH; [exact Hsettled|]. intros f Hf. cbn. apply Hqueue. now right.
  - cbn [importLoop]. rewrite Eu. intros n. destruct s. cbn. apply (Hs n).
Qed.

(** Processing a queued file keeps the queue and the status map on the same
    names; so does a whole import run, when it returns, and also when it is
    cut short by a rejection, for the files of the page. *)
Theorem processing_keeps_names (r : Render) (s : Sys W) :
  namesMatch s ->
  (forall file, In file (files s) -> namesMatch (snd (processSingleFile r file s)))
  /\ (fst (handleImport r s) = Ok tt \/ (forall f, In f (r_files r) -> In f (files s)) ->
      namesMatch (snd (handleImport r s))).
Proof.
  intros Hs. split.
  - intros file Hfile.
    destruct (processSingleFile_run r file (world s))
      as (res & st & w' & evs & _ & _ & Hrun).
    rewrite (Hrun s eq_refl). now apply settle_keeps_names.
  - assert (Hlog : forall e, namesMatch (emit e s)).
    { intros e n. destruct s. cbn. apply (Hs n). }
    assert (Hempty : forall s' : Sys W,
              files s' = [] -> fileProgress s' = ∅ -> namesMatch s').
    { intros s' Hf Hp n. rewrite Hf, Hp, lookup_empty. cbn.
      split; [intros [? ?]; discriminate | intros []]. }
    unfold handleImport.
    destruct (length (r_files r) =? 0)%nat; [intros _; apply Hlog|].
    destruct (negb (bool_decide (is_Some (r_user r))) && negb (r_authLoading r))%bool.
    + intros _. cbv [bind act snd]. intros n. destruct s. cbn. apply (Hs n).
    + cbv [bind act].
      pose proof (importLoop_keeps_names r (r_files r) true (setIsProcessing true s))
        as Hloop.
      destruct (importLoop r (r_files r) true (setIsProcessing true s))
        as [[b'|e] s'].
      * intros _. unfold finishImport.
        destruct s' as [fs' fp' dr' ip' w' lg'].
        destruct (b' && (0 <? length (r_files r))%nat);
          [| destruct (0 <? length (r_files r))%nat ];
          destruct (r_user r);
          cbv [bind act ret emit setIsProcessing setFiles setFileProgress
               fst snd files fileProgress dragging isProcessing world log];
          now apply Hempty.
      * cbn [fst snd] in *. intros [Hok|Hqueue]; [discriminate Hok|].
        apply Hloop; [|exact Hqueue].
        intros n. destruct s. cbn. apply (Hs n).
Qed.

End ImportMore.

(** ** File names, extensions and icons *)

Section Names.
Import Ui ImportPage.
Context {W : Type} `{Services W}.

Lemma lastIndexOf_absent (c : ascii) (s : string) :
  contains c s = false -> lastIndexOf c s = (-1)%Z.
Proof.
  induction s as [|a s IH]; [reflexivity|].
  cbn [contains lastIndexOf]. intros Hc.
  apply orb_false_elim in Hc as [Ha Hs]. rewrite (IH Hs), Ha. reflexivity.
Qed.

Lemma lastIndexOf_last (c : ascii) (base ext : string) :
  contains c ext = false ->
  lastIndexOf c (base ++ String c ext) = Z.of_nat (String.length base).
Proof.
  intros Hc. induction base as [|a base IH].
  - change ("" ++ String c ext) with (String c ext).
    cbn [lastIndexOf]. rewrite (lastIndexOf_absent c ext Hc), Ascii.eqb_refl.
    reflexivity.
  - rewrite string_app_cons. cbn [lastIndexOf String.length]. rewrite IH.
    replace (0 <=? Z.of_nat (String.length base))%Z with true
      by (symmetry; apply Z.leb_le; lia).
    lia.
Qed.

Lemma length_string_app (a b : string) :
  String.length (a ++ b) = String.length a + String.length b.
Proof.
  induction a as [|x a IH]; [reflexivity|].
  rewrite string_app_cons. cbn [String.length]. now rewrite IH.
Qed.

Lemma substring_prefix (base rest : string) :
  String.substring 0 (String.length base) (base ++ rest) = base.
Proof.
  induction base as [|a base IH].
  - destruct rest; reflexivity.
  - rewrite string_app_cons. cbn [String.length String.substring]. now rewrite IH.
Qed.

Lemma split_absent (c : ascii) (s : string) :
  contains c s = false -> split c s = [s].
Proof.
  induction s as [|a s IH]; [reflexivity|].
  cbn [contains split]. intros Hc.
  apply orb_false_elim in Hc as [Ha Hs]. now rewrite Ha, (IH Hs).
Qed.

Lemma split_not_nil (c : ascii) (s : string) : split c s <> [].
Proof.
  destruct s as [|a s]; [discriminate|]. cbn [split].
  destruct (Ascii.eqb a c); [discriminate|].
  destruct (split c s); discriminate.
Qed.

Lemma last_split_after (c : ascii) (base ext : string) :
  last (split c (base ++ String c ext)) = last (split c ext).
Proof.
  induction base as [|a base IH].
  - change ("" ++ String c ext) with (String c ext).
    cbn [split]. rewrite Ascii.eqb_refl.
    destruct (split c ext) eqn:E; [now apply split_not_nil in E | reflexivity].
  - rewrite string_app_cons. cbn [split].
    destruct (split c (base ++ String c ext)) as [|h [|h' t]] eqn:E.
    + now apply split_not_nil in E.
    + (* one segment only: impossible, the separator is in the string *)
      exfalso. clear IH.
      assert (Hlen : forall b, 2 <= length (split c (b ++ String c ext))).
      { clear. induction b as [|x b IHb].
        - change ("" ++ String c ext) with (String c ext).
          cbn [split]. rewrite Ascii.eqb_refl. cbn [length].
          pose proof (split_not_nil c ext). destruct (split c ext); [congruence|cbn; lia].
        - rewrite string_app_cons. cbn [split].
          destruct (Ascii.eqb x c); [cbn [length]; lia|].
          destruct (split c (b ++ String c ext)) as [|? ?]; cbn in *; lia. }
      specialize (Hlen base). rewrite E in Hlen. cbn in Hlen. lia.
    + destruct (Ascii.eqb a c); rewrite <- IH; reflexivity.
Qed.

(** For a name [base.ext] with a non-empty base and no dot in [ext], the
    title of the note is [base] and the extension is [ext] in lower case,
    however many dots [base] has. *)
Theorem title_and_extension_of_name (base ext ty body : string) :
  base <> "" ->
  contains "." ext = false ->
  titleOf {| name := base ++ "." ++ ext; type := ty; data := body |} = base
  /\ extensionOf {| name := base ++ "." ++ ext; type := ty; data := body |}
     = toLowerCase ext.
Proof.
  intros Hbase Hext. unfold titleOf, extensionOf. cbn [name].
  change ("." ++ ext) with (String "." ext). split.
  - rewrite (lastIndexOf_last "." base ext Hext). unfold Js.substring.
    rewrite length_string_app. cbn [String.length].
    replace (Z.min (Z.max 0 0) _) with 0%Z by lia.
    replace (Z.min (Z.max (Z.of_nat (String.length base)) 0) _)
      with (Z.of_nat (String.length base)) by lia.
    replace (Z.min 0 (Z.of_nat (String.length base))) with 0%Z by lia.
    replace (Z.max 0 (Z.of_nat (String.length base)))
      with (Z.of_nat (String.length base)) by lia.
    rewrite Z.sub_0_r, Nat2Z.id. change (Z.to_nat 0) with 0.
    rewrite substring_prefix. unfold orElse.
    destruct base; [congruence | reflexivity].
  - rewrite last_split_after, (split_absent "." ext Hext). reflexivity.
Qed.

Lemma substring_from_0 (s : string) (e : Z) :
  Js.substring s 0 e =
  String.substring 0 (Z.to_nat (Z.min (Z.max e 0) (Z.of_nat (String.length s)))) s.
Proof.
  unfold Js.substring.
  set (len := Z.of_nat (String.length s)).
  set (b := Z.min (Z.max e 0) len).
  assert (Hlen : (0 <= len)%Z) by (subst len; lia).
  assert (Hb : (0 <= b)%Z) by (subst b; lia).
  replace (Z.min (Z.max 0 0) len) with 0%Z by lia.
  replace (Z.min 0 b) with 0%Z by lia.
  replace (Z.max 0 b) with b by lia.
  now rewrite Z.sub_0_r.
Qed.

(** A name without a dot is its own title, and its lower-cased whole is taken
    for the extension. *)
Theorem title_of_dotless_name (n ty body : string) :
  contains "." n = false ->
  titleOf {| name := n; type := ty; data := body |} = n
  /\ extensionOf {| name := n; type := ty; data := body |} = toLowerCase n.
Proof.
  intros Hn. unfold titleOf, extensionOf. cbn [name]. split.
  - rewrite (lastIndexOf_absent "." n Hn), substring_from_0.
    replace (Z.to_nat _) with 0 by lia.
    replace (String.substring 0 0 n) with "" by (destruct n; reflexivity).
    reflexivity.
  - now rewrite (split_absent "." n Hn).
Qed.

Lemma includes_cons (x y : string) (l : list string) :
  includes (y :: l) x = (String.eqb x y || includes l x)%bool.
Proof. reflexivity. Qed.

Lemma includes_nil (x : string) : includes [] x = false.
Proof. reflexivity. Qed.

(** The chain of [extractContent] ends in its last [else] exactly for the
    extensions outside the nine it names. *)
Lemma extractContent_None_iff (file : File) :
  extractContent file = Ok None <->
  includes ["txt"; "md"; "pdf"; "docx"; "png"; "jpg"; "jpeg"; "bmp"; "gif"]
    (extensionOf file) = false.
Proof.
  unfold extractContent. rewrite !includes_cons, !includes_nil.
  set (ext := extensionOf file).
  destruct (String.eqb ext "txt"); cbn [orb].
  { split; [|discriminate]. destruct (file_text file); discriminate. }
  destruct (String.eqb ext "md"); cbn [orb].
  { split; [|discriminate]. destruct (file_text file); discriminate. }
  destruct (String.eqb ext "pdf"); cbn [orb].
  { split; [|discriminate].
    destruct (file_arrayBuffer file) as [buf|]; [|discriminate].
    destruct (getDocument buf) as [doc|]; [|discriminate].
    destruct (snd (pdfText doc)); discriminate. }
  destruct (String.eqb ext "docx"); cbn [orb].
  { split; [|discriminate].
    destruct (file_arrayBuffer file) as [buf|]; [|discriminate].
    destruct (extractRawText buf); discriminate. }
  destruct (String.eqb ext "png" || String.eqb ext "jpg" || String.eqb ext "jpeg"
            || String.eqb ext "bmp" || String.eqb ext "gif")%bool eqn:Eimg.
  - replace (String.eqb ext "png" || (String.eqb ext "jpg" || (String.eqb ext "jpeg"
              || (String.eqb ext "bmp" || (String.eqb ext "gif" || false)))))%bool
      with true
      by (rewrite orb_false_r, !orb_assoc; now rewrite Eimg).
    split; [|discriminate]. destruct (ocrImage file); discriminate.
  - replace (String.eqb ext "png" || (String.eqb ext "jpg" || (String.eqb ext "jpeg"
              || (String.eqb ext "bmp" || (String.eqb ext "gif" || false)))))%bool
      with false
      by (rewrite orb_false_r, !orb_assoc; now rewrite Eimg).
    split; reflexivity.
Qed.

(** The icon agrees with the file input and with the extraction: the generic
    purple icon is shown exactly for the extensions outside the accepted set,
    and a file is left unextracted exactly when its icon is the purple one or
    its extension is [doc], which has an icon but no extractor. *)
Theorem icon_and_extraction_agree (file : File) :
  (getFileIcon file = File_purple <-> includes accept (extensionOf file) = false)
  /\ (extractContent file = Ok None <->
      getFileIcon file = File_purple \/ extensionOf file = "doc").
Proof.
  rewrite extractContent_None_iff.
  unfold getFileIcon, accept. rewrite !includes_cons, !includes_nil.
  set (ext := extensionOf file).
  destruct (String.eqb ext "doc") eqn:Edoc.
  - apply String.eqb_eq in Edoc. rewrite Edoc. cbn. split; split; try discriminate; auto.
  - assert (Hdoc : ext <> "doc") by now apply String.eqb_neq.
    destruct (String.eqb ext "pdf"), (String.eqb ext "docx"), (String.eqb ext "txt"),
      (String.eqb ext "md"), (String.eqb ext "png"), (String.eqb ext "jpg"),
      (String.eqb ext "jpeg"), (String.eqb ext "bmp"), (String.eqb ext "gif");
      cbn; (split; split; try discriminate; try reflexivity; auto);
      intros [Hp|Hd]; try discriminate; try contradiction; reflexivity.
Qed.

End Names.

(** ** The tag filters and the list of the dashboard *)

Section DashboardList.
Import Ui DashboardView.

Lemma includes_In (l : list string) (x : string) :
  includes l x = true <-> In x l.
Proof.
  unfold includes. rewrite existsb_exists. split.
  - intros (y & Hy & E). apply String.eqb_eq in E. now subst.
  - intros Hx. exists x. split; [exact Hx | apply String.eqb_refl].
Qed.

Lemma In_without (tag t : string) (l : list string) :
  In t (List.filter (fun x => negb (String.eqb x tag)) l) <-> t <> tag /\ In t l.
Proof.
  rewrite List.filter_In, negb_true_iff, String.eqb_neq. tauto.
Qed.

Lemma without_absent (tag : string) (l : list string) :
  ~ In tag l -> List.filter (fun x => negb (String.eqb x tag)) l = l.
Proof.
  intros Hn. apply forallb_filter_id, forallb_forall.
  intros x Hx. apply negb_true_iff, String.eqb_neq. intros ->. now apply Hn.
Qed.

(** A click on a tag flips that tag in the active filters and no other,
    keeps the list free of duplicates, and clears both search terms. *)
Theorem tag_click_toggles (w : option Z) (tag : string) (s : State) :
  (In tag (activeFilterTagIds (handleTagFilterClick w tag s))
   <-> ~ In tag (activeFilterTagIds s))
  /\ (forall t, t <> tag ->
        (In t (activeFilterTagIds (handleTagFilterClick w tag s))
         <-> In t (activeFilterTagIds s)))
  /\ (NoDup (activeFilterTagIds s) ->
      NoDup (activeFilterTagIds (handleTagFilterClick w tag s)))
  /\ searchTerm (handleTagFilterClick w tag s) = ""
  /\ debouncedSearchTerm (handleTagFilterClick w tag s) = "".
Proof.
  unfold handleTagFilterClick. cbn [activeFilterTagIds searchTerm debouncedSearchTerm].
  destruct (includes (activeFilterTagIds s) tag) eqn:E.
  - apply includes_In in E. split; [|split; [|split; [|split]]]; try reflexivity.
    + rewrite In_without. tauto.
    + intros t Ht. rewrite In_without. tauto.
    + intros Hnd. apply NoDup_ListNoDup. apply List.NoDup_filter.
      now apply NoDup_ListNoDup.
  - assert (Hn : ~ In tag (activeFilterTagIds s)).
    { intros Hin. apply includes_In in Hin. congruence. }
    split; [|split; [|split; [|split]]]; try reflexivity.
    + rewrite in_app_iff. cbn. tauto.
    + intros t Ht. rewrite in_app_iff. cbn. split; [|tauto].
      intros [Hin|[Heq|[]]]; [exact Hin | congruence].
    + intros Hnd. apply NoDup_app. split; [exact Hnd|]. split.
      * intros x Hx Hx'. apply list_elem_of_In in Hx.
        apply list_elem_of_In in Hx'. destruct Hx' as [<-|[]]. now apply Hn.
      * apply NoDup_singleton.
Qed.

Lemma tag_click_toggles_witness :
  activeFilterTagIds
    (handleTagFilterClick (Some 1024%Z) "t2"
       {| searchTerm := "abc"; debouncedSearchTerm := "abc";
          activeFilterTagIds := ["t1"; "t2"; "t3"]; activeDocumentTab := all;
          isSidebarOpen := true; newTagName := ""; newTagColor := "#3B82F6";
          isCreatingTag := false; showNewTagForm := false; log := [] |})
  = ["t1"; "t3"]
  /\ NoDup ["t1"; "t3"].
Proof.
  split; [reflexivity|].
  pose proof (tag_click_toggles (Some 1024%Z) "t2"
                {| searchTerm := "abc"; debouncedSearchTerm := "abc";
                   activeFilterTagIds := ["t1"; "t2"; "t3"]; activeDocumentTab := all;
                   isSidebarOpen := true; newTagName := ""; newTagColor := "#3B82F6";
                   isCreatingTag := false; showNewTagForm := false; log := [] |})
    as (_ & _ & Hnd & _).
  apply Hnd. apply (bool_decide_unpack _). vm_compute. exact I.
Defined.

Lemma without_then_back (tag : string) (l : list string) :
  NoDup l -> In tag l ->
  Permutation (List.filter (fun x => negb (String.eqb x tag)) l ++ [tag]) l.
Proof.
  induction l as [|x l IH]; intros Hnd Hin; [destruct Hin|].
  apply NoDup_cons in Hnd as (Hx & Hnd). cbn [List.filter].
  destruct (String.eqb x tag) eqn:E; cbn [negb].
  - apply String.eqb_eq in E. subst x.
    rewrite without_absent by (intros Hl; apply Hx; now apply list_elem_of_In).
    symmetry. apply Permutation_cons_append.
  - apply String.eqb_neq in E. destruct Hin as [Heq|Hin]; [congruence|].
    cbn [app]. constructor. now apply IH.
Qed.

(** Two clicks on the same tag give back the same set of active filters;
    when the tag was not active, the very same list. *)
Theorem tag_double_click (w1 w2 : option Z) (tag : string) (s : State) :
  NoDup (activeFilterTagIds s) ->
  Permutation
    (activeFilterTagIds (handleTagFilterClick w2 tag (handleTagFilterClick w1 tag s)))
    (activeFilterTagIds s)
  /\ (~ In tag (activeFilterTagIds s) ->
      activeFilterTagIds (handleTagFilterClick w2 tag (handleTagFilterClick w1 tag s))
      = activeFilterTagIds s).
Proof.
  intros Hnd. unfold handleTagFilterClick. cbn [activeFilterTagIds].
  destruct (includes (activeFilterTagIds s) tag) eqn:E.
  - apply includes_In in E.
    replace (includes (List.filter _ (activeFilterTagIds s)) tag) with false.
    2:{ symmetry. apply not_true_is_false. rewrite includes_In, In_without.
        intros [Hne _]. now apply Hne. }
    split; [now apply without_then_back | intros Hn; contradiction].
  - assert (Hn : ~ In tag (activeFilterTagIds s)).
    { intros Hin. apply includes_In in Hin. congruence. }
    replace (includes (activeFilterTagIds s ++ [tag]) tag) with true.
    2:{ symmetry. apply includes_In, in_or_app. right. now left. }
    rewrite List.filter_app, without_absent by exact Hn.
    cbn. rewrite String.eqb_refl. cbn. rewrite app_nil_r.
    split; [reflexivity | intros _; reflexivity].
Qed.

Lemma tag_double_click_witness :
  Permutation
    (activeFilterTagIds
       (handleTagFilterClick None "t1"
          (handleTagFilterClick None "t1"
             {| searchTerm := ""; debouncedSearchTerm := "";
                activeFilterTagIds := ["t1"; "t2"]; activeDocumentTab := all;
                isSidebarOpen := false; newTagName := ""; newTagColor := "";
                isCreatingTag := false; showNewTagForm := false; log := [] |})))
    ["t1"; "t2"].
Proof.
  apply (tag_double_click None None "t1"
           {| searchTerm := ""; debouncedSearchTerm := "";
              activeFilterTagIds := ["t1"; "t2"]; activeDocumentTab := all;
              isSidebarOpen := false; newTagName := ""; newTagColor := "";
              isCreatingTag := false; showNewTagForm := false; log := [] |}).
  apply (bool_decide_unpack _). vm_compute. exact I.
Defined.

Lemma filter_sublist_of {A : Type} (f : A -> bool) (l : list A) :
  sublist (List.filter f l) l.
Proof.
  induction l as [|x l IH]; [constructor|].
  cbn [List.filter]. destruct (f x); now constructor.
Qed.

(** With a blank search term, the whole list of the active tab is shown, in
    its order, when no tag filter is active, and also when the term is not
    empty (white space only): the tag filters then do not apply. *)
Theorem blank_search_shows_the_tab (q : Queries) (s : State) :
  trim (debouncedSearchTerm s) = "" ->
  activeFilterTagIds s = [] \/ debouncedSearchTerm s <> "" ->
  filteredNotes q s = baseNotesOf q s.
Proof.
  intros Hblank Hor. unfold filteredNotes, baseNotesOf.
  rewrite Hblank. cbn [String.eqb negb].
  destruct Hor as [->|Hne]; [reflexivity|].
  apply String.eqb_neq in Hne. rewrite Hne. now rewrite andb_false_r.
Qed.

Lemma blank_search_shows_the_tab_witness :
  let n := {| id := "n1"; title := Some "A"; content := None; ai_summary := None;
              tags := None; ai_summary_keywords := None |} in
  filteredNotes
    {| allNotes := [n]; favoriteNotes := []; recentlyViewedNotes := [];
       titleContentSearchedNotes := None |}
    {| searchTerm := "  "; debouncedSearchTerm := "  ";
       activeFilterTagIds := ["t1"]; activeDocumentTab := all;
       isSidebarOpen := false; newTagName := ""; newTagColor := "";
       isCreatingTag := false; showNewTagForm := false; log := [] |}
  = [n].
Proof.
  intros n.
  apply (blank_search_shows_the_tab
           {| allNotes := [n]; favoriteNotes := []; recentlyViewedNotes := [];
              titleContentSearchedNotes := None |}).
  - reflexivity.
  - right. discriminate.
Defined.

(** The tag carried by an element of [note.tags]. *)
Lemma hasActiveTag_spec (activeIds : list string) (note : Note) :
  hasActiveTag activeIds note = true <->
  exists t l, In t activeIds /\ tags note = Some l
              /\ (In (tagId t) l \/ exists g, In (tagObject g) l /\ Tags.id g = t).
Proof.
  unfold hasActiveTag. rewrite existsb_exists. split.
  - intros (t & Ht & Hex). apply existsb_exists in Hex as (tag & Htag & E).
    destruct (tags note) as [l|]; [|destruct Htag].
    exists t, l. split; [exact Ht|]. split; [reflexivity|].
    destruct tag as [x|g]; apply String.eqb_eq in E.
    + left. now subst.
    + right. now exists g.
  - intros (t & l & Ht & -> & Hl). exists t. split; [exact Ht|].
    apply existsb_exists. destruct Hl as [Hin|(g & Hin & Hg)].
    + exists (tagId t). split; [exact Hin | apply String.eqb_refl].
    + exists (tagObject g). split; [exact Hin | now apply String.eqb_eq].
Qed.

(** With an empty search term and active tag filters, a note of the tab is
    shown exactly when one of its tags, given as an id or as a tag, is one of
    the active ones; one match is enough. *)
Theorem tag_filter_keeps_notes_with_an_active_tag (q : Queries) (s : State)
    (note : Note) :
  debouncedSearchTerm s = "" ->
  activeFilterTagIds s <> [] ->
  (In note (filteredNotes q s) <->
   In note (baseNotesOf q s)
   /\ exists t l, In t (activeFilterTagIds s) /\ tags note = Some l
                  /\ (In (tagId t) l \/ exists g, In (tagObject g) l /\ Tags.id g = t)).
Proof.
  intros Hterm Hids. unfold filteredNotes, baseNotesOf. rewrite Hterm.
  cbn [trim trimStart trimEnd String.eqb negb].
  destruct (activeFilterTagIds s) as [|t0 ids] eqn:E; [congruence|].
  cbn [length Nat.ltb Nat.leb andb].
  now rewrite List.filter_In, hasActiveTag_spec.
Qed.

Lemma tag_filter_keeps_notes_with_an_active_tag_witness :
  let n := {| id := "n1"; title := None; content := None; ai_summary := None;
              tags := Some [tagId "t9";
                            tagObject {| Tags.id := "t1"; Tags.name := "Work";
                                         Tags.color := "#fff" |}];
              ai_summary_keywords := None |} in
  In n (filteredNotes
          {| allNotes := [n]; favoriteNotes := []; recentlyViewedNotes := [];
             titleContentSearchedNotes := None |}
          {| searchTerm := ""; debouncedSearchTerm := "";
             activeFilterTagIds := ["t0"; "t1"]; activeDocumentTab := all;
             isSidebarOpen := false; newTagName := ""; newTagColor := "";
             isCreatingTag := false; showNewTagForm := false; log := [] |}).
Proof.
  intros n.
  apply (tag_filter_keeps_notes_with_an_active_tag
           {| allNotes := [n]; favoriteNotes := []; recentlyViewedNotes := [];
              titleContentSearchedNotes := None |});
    [reflexivity | discriminate |].
  split; [now left|].
  exists "t1", [tagId "t9";
                tagObject {| Tags.id := "t1"; Tags.name := "Work"; Tags.color := "#fff" |}].
  split; [right; now left|]. split; [reflexivity|].
  right. eexists. split; [right; left; reflexivity | reflexivity].
Defined.

(** With a search term that is not blank, the active tag filters play no
    part: on the tab of all notes the results of the search request are shown
    as they are when there are any, and otherwise the notes of the tab that
    match the term. *)
Theorem search_ignores_tag_filters (q : Queries) (s : State) :
  trim (debouncedSearchTerm s) <> "" ->
  filteredNotes q s =
  match titleContentSearchedNotes q, activeDocumentTab s with
  | Some found, all => found
  | _, _ => List.filter (matchesSearch (toLowerCase (debouncedSearchTerm s)))
              (baseNotesOf q s)
  end.
Proof.
  intros Hterm. unfold filteredNotes, baseNotesOf.
  assert (Hne : String.eqb (debouncedSearchTerm s) "" = false).
  { apply String.eqb_neq. intros E. apply Hterm. now rewrite E. }
  apply String.eqb_neq in Hterm. rewrite Hterm, Hne, andb_false_r.
  reflexivity.
Qed.

Lemma search_ignores_tag_filters_witness :
  let n1 := {| id := "n1"; title := Some "Tax Report"; content := None;
               ai_summary := None; tags := None; ai_summary_keywords := None |} in
  let n2 := {| id := "n2"; title := Some "Holiday"; content := Some "beach";
               ai_summary := None; tags := None; ai_summary_keywords := None |} in
  filteredNotes
    {| allNotes := [n1; n2]; favoriteNotes := []; recentlyViewedNotes := [];
       titleContentSearchedNotes := None |}
    {| searchTerm := "REPORT"; debouncedSearchTerm := "REPORT";
       activeFilterTagIds := ["t1"]; activeDocumentTab := all;
       isSidebarOpen := false; newTagName := ""; newTagColor := "";
       isCreatingTag := false; showNewTagForm := false; log := [] |}
  = [n1].
Proof.
  intros n1 n2.
  rewrite (search_ignores_tag_filters
             {| allNotes := [n1; n2]; favoriteNotes := []; recentlyViewedNotes := [];
                titleContentSearchedNotes := None |});
    [reflexivity | vm_compute; discriminate].
Defined.

(** The list shown never holds a note that is neither in the list of the
    active tab nor in the results of the search request, and never changes
    the order: it is a sublist of one of the two. *)
Theorem filteredNotes_is_a_sublist (q : Queries) (s : State) :
  sublist (filteredNotes q s) (baseNotesOf q s)
  \/ exists found, titleContentSearchedNotes q = Some found
                   /\ activeDocumentTab s = all
                   /\ trim (debouncedSearchTerm s) <> ""
                   /\ filteredNotes q s = found.
Proof.
  destruct (String.eqb (trim (debouncedSearchTerm s)) "") eqn:Et.
  - left. apply String.eqb_eq in Et. unfold filteredNotes. fold (baseNotesOf q s).
    rewrite Et. cbn [String.eqb negb].
    destruct (_ && _)%bool; [apply filter_sublist_of | reflexivity].
  - apply String.eqb_neq in Et. rewrite (search_ignores_tag_filters q s Et).
    destruct (titleContentSearchedNotes q) as [found|] eqn:Eq.
    + destruct (activeDocumentTab s) eqn:Etab.
      * right. exists found. now repeat split.
      * left. apply filter_sublist_of.
      * left. apply filter_sublist_of.
    + left. apply filter_sublist_of.
Qed.

Lemma find_first {A : Type} (p : A -> bool) (l : list A) (x : A) :
  List.find p l = Some x ->
  exists before after,
    l = (before ++ x :: after)%list /\ p x = true
    /\ forall y, In y before -> p y = false.
Proof.
  induction l as [|a l IH]; [discriminate|]. cbn [List.find].
  destruct (p a) eqn:Ea.
  - intros E. injection E as <-. exists [], l. split; [reflexivity|].
    split; [exact Ea|]. intros y [].
  - intros E. destruct (IH E) as (before & after & -> & Hx & Hbefore).
    exists (a :: before), after. split; [reflexivity|]. split; [exact Hx|].
    intros y [<-|Hy]; [exact Ea | now apply Hbefore].
Qed.

(** The tags of a card: as many as the note has; a tag given as a tag stays;
    a tag given as an id becomes the first tag of the page whose id is that
    id or whose name is that id without case (no tag before it on the page is
    such a tag), and a gray tag named after the id when the page has none. *)
Theorem noteFullTags_resolves_ids (pageTags : list Tags.Tag) (note : Note)
    (l : list TagOrId) :
  tags note = Some l ->
  length (noteFullTags pageTags note) = length l
  /\ (forall i g, nth_error l i = Some (tagObject g) ->
                  nth_error (noteFullTags pageTags note) i = Some g)
  /\ (forall i x, nth_error l i = Some (tagId x) ->
        exists g, nth_error (noteFullTags pageTags note) i = Some g
          /\ ((exists before after,
                 pageTags = (before ++ g :: after)%list
                 /\ (Tags.id g = x \/ toLowerCase (Tags.name g) = toLowerCase x)
                 /\ forall t, In t before ->
                      Tags.id t <> x /\ toLowerCase (Tags.name t) <> toLowerCase x)
              \/ (g = {| Tags.id := x; Tags.name := x; Tags.color := "#718096" |}
                  /\ forall t, In t pageTags ->
                       Tags.id t <> x /\ toLowerCase (Tags.name t) <> toLowerCase x))).
Proof.
  intros Hl. unfold noteFullTags. rewrite Hl. split; [apply length_map|]. split.
  - intros i g Hi. now rewrite nth_error_map, Hi.
  - intros i x Hi. rewrite nth_error_map, Hi. cbn [option_map resolveTag].
    destruct (List.find _ pageTags) as [g|] eqn:Ef.
    + exists g. split; [reflexivity|]. left.
      apply find_first in Ef as (before & after & Hpage & Hm & Hbefore).
      exists before, after. split; [exact Hpage|]. split.
      * apply orb_true_iff in Hm as [Hm|Hm]; apply String.eqb_eq in Hm; auto.
      * intros t Ht. specialize (Hbefore t Ht). cbn beta in Hbefore.
        apply orb_false_elim in Hbefore as [H1 H2].
        now apply String.eqb_neq in H1; apply String.eqb_neq in H2.
    + eexists. split; [reflexivity|]. right. split; [reflexivity|].
      intros t Ht. pose proof (List.find_none _ _ Ef t Ht) as Hm. cbn beta in Hm.
      apply orb_false_elim in Hm as [H1 H2].
      now apply String.eqb_neq in H1; apply String.eqb_neq in H2.
Qed.

Lemma noteFullTags_resolves_ids_witness :
  let work := {| Tags.id := "t1"; Tags.name := "Work"; Tags.color := "#fff" |} in
  let job := {| Tags.id := "work"; Tags.name := "Job"; Tags.color := "#000" |} in
  noteFullTags [work; job]
    {| id := "n1"; title := None; content := None; ai_summary := None;
       tags := Some [tagId "work"; tagId "zz"]; ai_summary_keywords := None |}
  = [work; {| Tags.id := "zz"; Tags.name := "zz"; Tags.color := "#718096" |}]
  /\ length
       (noteFullTags [work; job]
          {| id := "n1"; title := None; content := None; ai_summary := None;
             tags := Some [tagId "work"; tagId "zz"]; ai_summary_keywords := None |})
     = 2.
Proof.
  intros work job. split; [reflexivity|].
  apply (noteFullTags_resolves_ids [work; job]
           {| id := "n1"; title := None; content := None; ai_summary := None;
              tags := Some [tagId "work"; tagId "zz"]; ai_summary_keywords := None |}
           [tagId "work"; tagId "zz"] eq_refl).
Defined.

(** [handleCreateTag]: a blank name sends no request and leaves the form; any
    other name is sent as typed, with the colour of the form; after the
    request the form is no longer creating, whatever the answer; a success
    resets the form, invalidates the tags and names the new tag in its
    notification; a failure keeps what was typed. *)
Theorem handleCreateTag_outcomes (createTag : string -> string -> Result unit)
    (s : State) :
  let s' := handleCreateTag createTag s in
  let sent := call_createTag (newTagName s) (newTagColor s) in
  (trim (newTagName s) = "" ->
     log s' = (log s ++ [ui (toast_error "Tag name cannot be empty")])%list
     /\ newTagName s' = newTagName s /\ newTagColor s' = newTagColor s
     /\ isCreatingTag s' = isCreatingTag s /\ showNewTagForm s' = showNewTagForm s)
  /\ (trim (newTagName s) <> "" ->
      isCreatingTag s' = false
      /\ match createTag (newTagName s) (newTagColor s) with
         | Ok _ =>
             newTagName s' = "" /\ newTagColor s' = "#3B82F6"
             /\ showNewTagForm s' = false
             /\ log s' =
                (log s ++
                 [sent; ui (invalidateQueries "tags");
                  ui (toast_success
                        ("Tag " ++ dquote ++ newTagName s ++ dquote ++ " created"))])%list
         | Throw _ =>
             newTagName s' = newTagName s /\ newTagColor s' = newTagColor s
             /\ showNewTagForm s' = showNewTagForm s
             /\ log s' =
                (log s ++
                 [sent; ui (console_error "Error creating tag:");
                  ui (toast_error "Failed to create tag")])%list
         end)
  /\ searchTerm s' = searchTerm s
  /\ activeFilterTagIds s' = activeFilterTagIds s.
Proof.
  intros s' sent. subst s' sent. unfold handleCreateTag.
  destruct (String.eqb (trim (newTagName s)) "") eqn:Et.
  - apply String.eqb_eq in Et. split; [|split].
    + intros _. now repeat split.
    + intros Hne. contradiction.
    + now split.
  - apply String.eqb_neq in Et. split; [|split].
    + intros Hblank. contradiction.
    + intros _. destruct (createTag (newTagName s) (newTagColor s)); cbn;
        rewrite <- !app_assoc; now repeat split.
    + destruct (createTag (newTagName s) (newTagColor s)); now split.
Qed.

Lemma handleCreateTag_outcomes_witness :
  let s := {| searchTerm := ""; debouncedSearchTerm := "";
              activeFilterTagIds := []; activeDocumentTab := all;
              isSidebarOpen := false; newTagName := " Work "; newTagColor := "#112233";
              isCreatingTag := false; showNewTagForm := true; log := [] |} in
  isCreatingTag (handleCreateTag (fun _ _ => Throw (newError "offline")) s) = false
  /\ newTagName (handleCreateTag (fun _ _ => Throw (newError "offline")) s) = " Work ".
Proof.
  intros s.
  pose proof (handleCreateTag_outcomes (fun _ _ => Throw (newError "offline")) s)
    as (_ & Hsent & _).
  destruct Hsent as (Hidle & Hname & _); [vm_compute; discriminate|].
  split; [exact Hidle | exact Hname].
Defined.

End DashboardList.

(** ** More on the favorite toggle *)

Section FavoritesMore.
Import Ui Dashboard.

Lemma dropFavorite_unknown (noteId : string) (l : list Note) :
  (forall note, In note l -> id note <> noteId) -> dropFavorite noteId l = l.
Proof.
  intros Hl. unfold dropFavorite. apply forallb_filter_id, forallb_forall.
  intros note Hin. apply negb_true_iff, String.eqb_neq. now apply Hl.
Qed.

Lemma find_unknown (noteId : string) (l : list Note) :
  (forall note, In note l -> id note <> noteId) ->
  List.find (fun note => String.eqb (id note) noteId) l = None.
Proof.
  intros Hl. destruct (List.find _ l) as [note|] eqn:E; [|reflexivity].
  apply List.find_some in E as (Hin & Heq). apply String.eqb_eq in Heq.
  now destruct (Hl note Hin).
Qed.

Lemma markNotes_unknown (noteId : string) (v : bool) (c : QueryCache) :
  unknownIn noteId (notes c) -> markNotes noteId v c = c.
Proof.
  intros Hn. destruct c as [[l|] favs]; unfold markNotes; cbn; [|reflexivity].
  f_equal. f_equal. rewrite <- (map_id l) at 2. apply map_ext_in.
  intros note Hin. replace (String.eqb (id note) noteId) with false; [reflexivity|].
  symmetry. apply String.eqb_neq. now apply (Hn l note eq_refl).
Qed.

Lemma updateFavorites_unknown (noteId : string) (remove : bool) (c : QueryCache) :
  unknownIn noteId (notes c) -> unknownIn noteId (favorite_notes c) ->
  updateFavorites noteId remove c = c.
Proof.
  intros Hn Hf. destruct c as [ns [favs|]]; unfold updateFavorites; cbn; [|reflexivity].
  f_equal. f_equal. destruct remove.
  - apply dropFavorite_unknown. intros note Hin. now apply (Hf favs note eq_refl).
  - unfold addFavorite. cbn. destruct ns as [l|]; [|reflexivity]. cbn.
    rewrite find_unknown; [reflexivity|].
    intros note Hin. now apply (Hn l note eq_refl).
Qed.

(** A toggle for an id that is in neither cache leaves the caches as they
    are, whatever the request answers; only the log moves. *)
Theorem toggle_of_unknown_note (api : string -> bool -> Result bool)
    (noteId : string) (cur : bool) (s : State) :
  unknownIn noteId (notes (cache s)) ->
  unknownIn noteId (favorite_notes (cache s)) ->
  cache (snd (handleToggleFavorite api noteId cur s)) = cache s.
Proof.
  intros Hn Hf.
  assert (Hopt : optimisticUpdate noteId cur (cache s) = cache s).
  { unfold optimisticUpdate. rewrite markNotes_unknown by exact Hn.
    now apply updateFavorites_unknown. }
  unfold handleToggleFavorite. rewrite Hopt.
  destruct (api noteId cur) as [[|]|e]; cbn; try reflexivity.
  unfold rollback. rewrite markNotes_unknown by exact Hn.
  now apply updateFavorites_unknown.
Qed.

Lemma toggle_of_unknown_note_witness :
  let a := {| id := "a"; title := "A"; content := "x"; is_favorite := true |} in
  let s := {| cache := {| notes := Some [a]; favorite_notes := Some [a] |}; log := [] |} in
  cache (snd (handleToggleFavorite (fun _ _ => Ok false) "zz" true s)) = cache s.
Proof.
  intros a s.
  apply (toggle_of_unknown_note (fun _ _ => Ok false) "zz" true s);
    intros l note E Hin; injection E as <-; destruct Hin as [<-|[]]; discriminate.
Defined.

(** A favoriting that the request refuses leaves both caches exactly as they
    were, provided the cached notes of that id were not favorites and the
    favorites cache did not hold the note. *)
Theorem failed_favoriting_restores_the_cache (api : string -> bool -> Result bool)
    (noteId : string) (s : State) :
  api noteId false = Ok false ->
  (forall l note, notes (cache s) = Some l -> In note l -> id note = noteId ->
                  is_favorite note = false) ->
  unknownIn noteId (favorite_notes (cache s)) ->
  cache (snd (handleToggleFavorite api noteId false s)) = cache s.
Proof.
  intros Hapi Hflags Hfav. unfold handleToggleFavorite. rewrite Hapi. cbn [snd cache].
  pose proof (rollback_restores_flags noteId false (cache s) Hflags) as Hnotes.
  destruct (cache s) as [ns favs] eqn:Ec. cbn [notes] in Hnotes.
  unfold rollback, optimisticUpdate, updateFavorites in *.
  cbn [notes favorite_notes negb markNotes] in *.
  f_equal; [exact Hnotes|].
  destruct favs as [l|]; [|reflexivity]. f_equal.
  assert (Hl : forall note, In note l -> id note <> noteId).
  { intros note Hin. now apply (Hfav l note eq_refl). }
  unfold addFavorite. cbn [notes markNotes].
  destruct ns as [nl|]; cbn [option_map]; [|now apply dropFavorite_unknown].
  destruct (List.find _ (map _ nl)) as [found|] eqn:Efind;
    [|now apply dropFavorite_unknown].
  unfold dropFavorite. rewrite List.filter_app. fold (dropFavorite noteId l).
  rewrite dropFavorite_unknown by exact Hl.
  apply List.find_some in Efind as (_ & Hid).
  cbn [List.filter withFavorite id]. rewrite Hid. cbn. apply app_nil_r.
Qed.

Lemma failed_favoriting_restores_the_cache_witness :
  let a := {| id := "a"; title := "A"; content := "x"; is_favorite := false |} in
  let b := {| id := "b"; title := "B"; content := "y"; is_favorite := true |} in
  let s := {| cache := {| notes := Some [a; b]; favorite_notes := Some [b] |};
              log := [] |} in
  optimisticUpdate "a" false (cache s)
  = {| notes := Some [withFavorite true a; b];
       favorite_notes := Some [b; withFavorite true a] |}
  /\ cache (snd (handleToggleFavorite (fun _ _ => Ok false) "a" false s)) = cache s.
Proof.
  intros a b s. split; [reflexivity|].
  apply (failed_favoriting_restores_the_cache (fun _ _ => Ok false) "a" s).
  - reflexivity.
  - intros l note E Hin Hid. injection E as <-.
    destruct Hin as [<-|[<-|[]]]; [reflexivity | discriminate Hid].
  - intros l note E Hin. injection E as <-. destruct Hin as [<-|[]]. discriminate.
Defined.

Lemma find_after {A : Type} (p : A -> bool) (l1 l2 : list A) :
  List.find p l1 = None -> List.find p (l1 ++ l2) = List.find p l2.
Proof.
  induction l1 as [|a l1 IH]; [reflexivity|]. cbn [List.find app].
  destruct (p a); [discriminate | exact IH].
Qed.

(** Before the request is sent.  Un-favoriting takes every note of that id
    out of the favorites cache and keeps the others, in their order.
    Favoriting puts at the end of the favorites cache a copy of the first
    note of that id in the notes cache, with its fields and marked favorite,
    and leaves the favorites cache when the notes cache has no such note.
    In the notes cache each note of that id has its flag flipped, and every
    other note stays, place by place. *)
Theorem optimistic_update_moves_the_note (noteId : string) (cur : bool)
    (c : QueryCache) (favs : list Note) :
  favorite_notes c = Some favs ->
  (cur = true ->
     favorite_notes (optimisticUpdate noteId cur c)
     = Some (List.filter (fun note => negb (String.eqb (id note) noteId)) favs))
  /\ (cur = false ->
      forall before note after,
        notes c = Some (before ++ note :: after)%list ->
        id note = noteId ->
        (forall other, In other before -> id other <> noteId) ->
        favorite_notes (optimisticUpdate noteId cur c)
        = Some (favs ++ [{| id := id note; title := title note;
                            content := content note; is_favorite := true |}])%list)
  /\ (cur = false -> unknownIn noteId (notes c) ->
      favorite_notes (optimisticUpdate noteId cur c) = Some favs)
  /\ (forall l, notes c = Some l ->
      exists l', notes (optimisticUpdate noteId cur c) = Some l'
                 /\ length l' = length l
                 /\ forall i note, nth_error l i = Some note ->
                      nth_error l' i =
                      Some (if String.eqb (id note) noteId
                            then {| id := id note; title := title note;
                                    content := content note;
                                    is_favorite := negb cur |}
                            else note)).
Proof.
  intros Hfavs. unfold optimisticUpdate, updateFavorites, markNotes.
  cbn [notes favorite_notes]. rewrite Hfavs. split; [|split; [|split]].
  - intros ->. reflexivity.
  - intros -> before note after Hl Hid Hbefore. unfold addFavorite.
    cbn [notes negb]. rewrite Hl. cbn [option_map].
    rewrite map_app, find_after.
    2:{ apply find_unknown. intros m Hm.
        apply in_map_iff in Hm as (m0 & <- & Hm0).
        pose proof (Hbefore m0 Hm0) as Hne. apply String.eqb_neq in Hne.
        rewrite Hne. now apply String.eqb_neq. }
    apply String.eqb_eq in Hid. cbn [List.find map]. rewrite Hid.
    cbn [withFavorite id]. rewrite Hid. reflexivity.
  - intros -> Hunknown. unfold addFavorite. cbn [notes negb].
    destruct (notes c) as [l|] eqn:Hl; [|reflexivity]. cbn [option_map].
    rewrite find_unknown; [reflexivity|].
    intros m Hm. apply in_map_iff in Hm as (m0 & <- & Hm0).
    pose proof (Hunknown l m0 eq_refl Hm0) as Hne. apply String.eqb_neq in Hne.
    rewrite Hne. now apply String.eqb_neq.
  - intros l Hl. rewrite Hl. cbn [option_map]. eexists. split; [reflexivity|].
    split; [apply length_map|].
    intros i note Hi. now rewrite nth_error_map, Hi.
Qed.

Lemma optimistic_update_moves_the_note_witness :
  let a := {| id := "a"; title := "A"; content := "x"; is_favorite := true |} in
  let b := {| id := "b"; title := "B"; content := "y"; is_favorite := true |} in
  favorite_notes
    (optimisticUpdate "a" true {| notes := Some [a; b]; favorite_notes := Some [b; a; b] |})
  = Some [b; b].
Proof.
  intros a b.
  pose proof (optimistic_update_moves_the_note "a" true
                {| notes := Some [a; b]; favorite_notes := Some [b; a; b] |} [b; a; b]
                eq_refl)
    as (Hout & _).
  exact (Hout eq_refl).
Defined.

(** The toggle as the viewer runs it: it never throws; and when the request
    rejects, the caches stay as the optimistic update left them, nothing is
    rolled back, and the user is shown no notification. *)
Theorem viewer_toggle_swallows_rejection (api : string -> bool -> Result bool)
    (noteId : string) (cur : bool) (s : State) :
  let run := NoteViewer.handleFavoriteToggle (handleToggleFavorite api) noteId cur s in
  fst run = Ok tt
  /\ (forall e, api noteId cur = Throw e ->
        cache (snd run) = optimisticUpdate noteId cur (cache s)
        /\ log (snd run) =
           (log s ++ [call_toggleFavorite noteId cur;
                      console_error "Failed to toggle favorite:"])%list).
Proof.
  intros run. subst run. unfold NoteViewer.handleFavoriteToggle, handleToggleFavorite.
  destruct (api noteId cur) as [[|]|e]; cbn; (split; [reflexivity|]);
    intros e' He; try discriminate He.
  split; [reflexivity|]. now rewrite <- app_assoc.
Qed.

Lemma viewer_toggle_swallows_rejection_witness :
  let a := {| id := "a"; title := "A"; content := "x"; is_favorite := false |} in
  let s := {| cache := {| notes := Some [a]; favorite_notes := None |}; log := [] |} in
  cache (snd (NoteViewer.handleFavoriteToggle
                (handleToggleFavorite (fun _ _ => Throw (newError "offline")))
                "a" false s))
  = {| notes := Some [withFavorite true a]; favorite_notes := None |}.
Proof.
  intros a s.
  pose proof (viewer_toggle_swallows_rejection
                (fun _ _ => Throw (newError "offline")) "a" false s) as (_ & Hrej).
  destruct (Hrej (newError "offline") eq_refl) as (Hcache & _).
  exact Hcache.
Defined.

End FavoritesMore.

(** ** Failing pages, images, and the end of a run *)

Section ExtractionMore.
Import Ui ImportPage.
Context {W : Type} `{Services W}.

Lemma pdfLoop_first_failure (pdf : PDFDocumentProxy) (tc : nat -> TextContent)
    (e : JsError) :
  forall j count pageNum text visited,
  j < count ->
  (forall n, pageNum <= n < pageNum + j ->
             getPage pdf n = Ok {| getTextContent := Ok (tc n) |}) ->
  pageFails pdf (pageNum + j) e ->
  pdfLoop pdf count pageNum text visited
  = ((visited ++ seq pageNum (S j))%list, Throw e).
Proof.
  induction j as [|j IH]; intros count pageNum text visited Hj Hok Hfail.
  - destruct count as [|count]; [lia|]. rewrite Nat.add_0_r in Hfail.
    cbn [pdfLoop seq]. destruct Hfail as [->|(page & -> & ->)]; reflexivity.
  - destruct count as [|count]; [lia|]. cbn [pdfLoop].
    rewrite (Hok pageNum) by lia. cbn [getTextContent].
    rewrite (IH count (S pageNum)).
    + cbn [seq]. now rewrite <- app_assoc.
    + lia.
    + intros n Hn. apply Hok. lia.
    + now replace (S pageNum + j) with (pageNum + S j) by lia.
Qed.

(** When page k is the first that cannot be read, the extractor has asked for
    pages 1..k and no further, and fails with the error of page k. *)
Theorem pdfText_stops_at_first_failure (pdf : PDFDocumentProxy)
    (tc : nat -> TextContent) (k : nat) (e : JsError) :
  1 <= k <= numPages pdf ->
  (forall n, 1 <= n < k -> getPage pdf n = Ok {| getTextContent := Ok (tc n) |}) ->
  pageFails pdf k e ->
  pdfText pdf = (seq 1 k, Throw e).
Proof.
  intros Hk Hok Hfail. unfold pdfText.
  rewrite (pdfLoop_first_failure pdf tc e (k - 1)).
  - cbn [app]. now replace (S (k - 1)) with k by lia.
  - lia.
  - intros n Hn. apply Hok. lia.
  - now replace (1 + (k - 1)) with k by lia.
Qed.

(** Text comes out of the image branch only when the reader gave a data URL
    with a non-empty part after its first comma and the OCR request, made
    with that part and the type of the file, answered; the text is the
    answer. *)
Theorem ocrImage_needs_a_payload (file : File) (text : string) :
  ocrImage file = Ok text ->
  exists url base64,
    readAsDataURL file = onload (Some url)
    /\ nth_error (split "," url) 1 = Some base64
    /\ base64 <> ""
    /\ performOCRWithGemini base64 (type file) = Ok text.
Proof.
  unfold ocrImage. intros Hocr.
  destruct (readAsDataURL file) as [[url|]|shown]; try discriminate Hocr.
  destruct (String.eqb url ""); [discriminate Hocr|].
  destruct (nth_error (split "," url) 1) as [base64|] eqn:En; [|discriminate Hocr].
  destruct (String.eqb base64 "") eqn:Eb; [discriminate Hocr|].
  destruct (performOCRWithGemini base64 (type file)) as [ocrText|e] eqn:Eo;
    [|discriminate Hocr].
  injection Hocr as <-. exists url, base64.
  split; [reflexivity|]. split; [exact En|].
  split; [now apply String.eqb_neq|].
  rewrite Eo. unfold orElse. destruct (String.eqb ocrText "") eqn:E; [|reflexivity].
  apply String.eqb_eq in E. now rewrite E.
Qed.

(** When no collaborator rejects with [null] or [undefined], the loop of a
    render with a user returns, and no queued file is then pending or
    processing: each has ended completed or in error, whatever else the
    files, the services and the backend did. *)
Theorem no_file_is_left_pending (r : Render) (u : User) (queue : list File)
    (b : bool) (s : Sys W) (f : File) :
  r_user r = Some u ->
  noNullish queue ->
  In f queue ->
  (exists b', fst (importLoop r queue b s) = Ok b')
  /\ exists st,
       fileProgress (snd (importLoop r queue b s)) !! name f = Some st
       /\ (status st = completed \/ status st = error)
       /\ status st <> pending /\ status st <> processing.
Proof.
  intros Eu Hpol Hin.
  split; [eexists; now apply (importLoop_flag r u)|].
  destruct (importLoop_terminal r u queue Eu Hpol b s f Hin) as (st & Hst & Hterm).
  exists st. split; [exact Hst|]. split; [exact Hterm|].
  destruct Hterm as [-> | ->]; split; discriminate.
Qed.

End ExtractionMore.

Section ExtractionRuns.
Import Ui ImportPage Demo.

Lemma pdfText_stops_at_first_failure_witness :
  pdfText {| numPages := 3;
             getPage := fun n =>
               if (n =? 2)%nat then Throw (newError "bad page")
               else Ok {| getTextContent := Ok {| items := [{| str := "x" |}] |} |} |}
  = ([1; 2], Throw (newError "bad page")).
Proof.
  apply (pdfText_stops_at_first_failure _ (fun _ => {| items := [{| str := "x" |}] |}) 2).
  - cbn. lia.
  - intros n Hn. assert (n = 1) as -> by lia. reflexivity.
  - left. reflexivity.
Defined.

Lemma ocrImage_needs_a_payload_witness :
  exists url base64,
    readAsDataURL {| name := "p.png"; type := "image/png"; data := "QUJD" |}
    = onload (Some url)
    /\ nth_error (split "," url) 1 = Some base64
    /\ base64 <> ""
    /\ performOCRWithGemini base64 "image/png" = Ok "QUJD".
Proof.
  apply (ocrImage_needs_a_payload
           {| name := "p.png"; type := "image/png"; data := "QUJD" |} "QUJD").
  reflexivity.
Defined.

Lemma no_file_is_left_pending_witness :
  let a := txt "a.txt" "one" in
  let k := pdf "b.pdf" "junk" in
  let s0 := handleFileSelect (Some [a; k]) (start {| ttl := 1; stored := [] |}) in
  exists st,
    fileProgress (snd (importLoop (render false s0) [a; k] true s0)) !! "b.pdf" = Some st
    /\ (status st = completed \/ status st = error)
    /\ status st <> pending /\ status st <> processing.
Proof.
  intros a k s0.
  apply (no_file_is_left_pending (render false s0) demoUser [a; k] true s0 k).
  - reflexivity.
  - apply demo_noNullish. intros f [<-|[<-|[]]]; reflexivity.
  - right. now left.
Defined.

Lemma handleImport_with_user_witness :
  let s0 := handleFileSelect (Some [pdf "b.pdf" "junk"])
              (start {| ttl := 9; stored := [] |}) in
  files (snd (handleImport (render false s0) s0)) = []
  /\ fileProgress (snd (handleImport (render false s0) s0)) = ∅
  /\ isProcessing (snd (handleImport (render false s0) s0)) = false.
Proof.
  intros s0.
  rewrite (handleImport_with_user (render false s0) demoUser s0);
    [| reflexivity | discriminate
     | apply demo_noNullish; intros f [<-|[]]; reflexivity].
  repeat split.
Defined.

Lemma handleImport_without_user_witness :
  let s0 := handleFileSelect (Some [txt "a.txt" "one"])
              (start {| ttl := 0; stored := [] |}) in
  world (snd (handleImport (render false s0) s0)) = world s0
  /\ serviceCalls (log (snd (handleImport (render false s0) s0))) = [].
Proof.
  intros s0.
  pose proof (handleImport_without_user (render false s0) s0 eq_refl)
    as (_ & Hworld & Hcalls & _).
  split; [exact Hworld | exact Hcalls].
Defined.

Lemma processing_keeps_names_witness :
  let s0 := handleFileSelect (Some [txt "a.txt" "one"])
              (start {| ttl := 9; stored := [] |}) in
  is_Some (fileProgress
             (snd (processSingleFile (render false s0) (txt "a.txt" "one") s0)) !! "a.txt")
  <-> In "a.txt"
        (map name
           (files (snd (processSingleFile (render false s0) (txt "a.txt" "one") s0)))).
Proof.
  intros s0.
  assert (H0 : namesMatch s0).
  { intros n. cbn. split.
    - intros Hn. destruct (decide (n = "a.txt")) as [->|Hne]; [now left|].
      exfalso. destruct Hn as [st Hst]. revert Hst.
      unfold newFilesWithStatus. cbn.
      rewrite lookup_union_l by apply lookup_empty.
      rewrite lookup_insert_ne by congruence. now rewrite lookup_empty.
    - intros [<-|[]]. now eexists. }
  destruct (processing_keeps_names (render false s0) s0 H0) as (Hfile & _).
  exact (Hfile (txt "a.txt" "one") (or_introl eq_refl) "a.txt").
Defined.


Lemma notes_come_from_queued_files_witness :
  let s0 := handleFileSelect (Some [txt "note1.txt" "Hello world"])
              (start {| ttl := 9; stored := [] |}) in
  exists f, In f [txt "note1.txt" "Hello world"] /\ "note1" = titleOf f.
Proof.
  intros s0.
  destruct (notes_come_from_queued_files (render false s0)
              [txt "note1.txt" "Hello world"] "note1" "Hello world" "active" false false
              true s0) as [Hold|(f & Hf & Ht & _)].
  - vm_compute. right. left. reflexivity.
  - destruct Hold.
  - exists f. now split.
Defined.

Lemma title_and_extension_of_name_witness :
  titleOf (txt "a.b.MD" "") = "a.b" /\ extensionOf (txt "a.b.MD" "") = "md".
Proof.
  apply (title_and_extension_of_name "a.b" "MD" "text/plain" "").
  - discriminate.
  - reflexivity.
Defined.

Lemma title_of_dotless_name_witness :
  titleOf (txt "README" "") = "README" /\ extensionOf (txt "README" "") = "readme".
Proof.
  apply (title_of_dotless_name "README" "text/plain" "").
  reflexivity.
Defined.

End ExtractionRuns.

(** ** The colour helper and the case of its digits *)

Section ContrastCase.
Import Dashboard.

Ltac by_bits a := destruct a as [[] [] [] [] [] [] [] []]; reflexivity.

Lemma isWhiteSpace_asciiLowerChar (a : ascii) : isWhiteSpace (asciiLowerChar a) = isWhiteSpace a.
Proof. by_bits a. Qed.

Lemma hexDigit_asciiLowerChar (a : ascii) : hexDigit (asciiLowerChar a) = hexDigit a.
Proof. by_bits a. Qed.

Lemma hash_asciiLowerChar (a : ascii) : Ascii.eqb (asciiLowerChar a) "#" = Ascii.eqb a "#".
Proof. by_bits a. Qed.

Lemma length_asciiLowerCase (s : string) :
  String.length (asciiLowerCase s) = String.length s.
Proof. induction s as [|a s IH]; [reflexivity|]. cbn. now rewrite IH. Qed.

Lemma substring_asciiLowerCase (s : string) :
  forall n m, String.substring n m (asciiLowerCase s) = asciiLowerCase (String.substring n m s).
Proof.
  induction s as [|a s IH]; intros n m.
  - destruct n, m; reflexivity.
  - destruct n as [|n]; [destruct m as [|m]|]; cbn; [reflexivity | now rewrite IH | apply IH].
Qed.

Lemma slice_asciiLowerCase (s : string) (i j : Z) :
  slice (asciiLowerCase s) i j = asciiLowerCase (slice s i j).
Proof. unfold slice. rewrite length_asciiLowerCase. apply substring_asciiLowerCase. Qed.

Lemma trimStart_asciiLowerCase (s : string) :
  trimStart (asciiLowerCase s) = asciiLowerCase (trimStart s).
Proof.
  induction s as [|a s IH]; [reflexivity|].
  cbn [asciiLowerCase trimStart]. rewrite isWhiteSpace_asciiLowerChar.
  destruct (isWhiteSpace a); [exact IH | reflexivity].
Qed.

Lemma hexPrefix_asciiLowerCase (s : string) :
  forall acc, hexPrefix (asciiLowerCase s) acc = hexPrefix s acc.
Proof.
  induction s as [|a s IH]; intros acc; [reflexivity|].
  cbn [asciiLowerCase hexPrefix]. rewrite hexDigit_asciiLowerChar.
  destruct (hexDigit a); [apply IH | reflexivity].
Qed.

Lemma parseInt16_asciiLowerCase (s : string) :
  parseInt16 (asciiLowerCase s) = parseInt16 s.
Proof.
  unfold parseInt16. rewrite trimStart_asciiLowerCase.
  destruct (trimStart s) as [|a t]; [reflexivity|].
  assert (Hprefix : forall u : string,
            hexPrefix
              match asciiLowerCase u with
              | String "0" (String x v) =>
                  if (Ascii.eqb x "x" || Ascii.eqb x "X")%bool then v else asciiLowerCase u
              | _ => asciiLowerCase u
              end None
            = hexPrefix
                match u with
                | String "0" (String x v) =>
                    if (Ascii.eqb x "x" || Ascii.eqb x "X")%bool then v else u
                | _ => u
                end None).
  { intros [|b u]; [reflexivity|].
    destruct b as [[] [] [] [] [] [] [] []];
      try (apply (hexPrefix_asciiLowerCase (String _ u) None)).
    destruct u as [|x v]; [reflexivity|].
    destruct x as [[] [] [] [] [] [] [] []];
      first [ apply (hexPrefix_asciiLowerCase v None)
            | apply (hexPrefix_asciiLowerCase (String "0" (String _ v)) None) ]. }
  pose proof (Hprefix t) as Hsigned.
  pose proof (Hprefix (String a t)) as Hplain.
  clear Hprefix.
  cbn [asciiLowerCase] in Hplain |- *.
  destruct a as [[] [] [] [] [] [] [] []];
    match goal with
    | |- context [asciiLowerChar ?c] =>
        let v := eval vm_compute in (asciiLowerChar c) in
        change (asciiLowerChar c) with v in Hplain |- *
    end;
    cbv beta iota zeta in Hplain |- *;
    first [ rewrite Hplain; reflexivity | rewrite Hsigned; reflexivity ].
Qed.

(** The colour chosen does not depend on the case of the letters of the
    colour string: with every letter A-Z replaced by its small letter the
    string gets the same text colour, as ['#FFAA00'] and ['#ffaa00'] do. *)
Theorem getContrastingTextColor_ignores_case (hexColor : string) :
  getContrastingTextColor (asciiLowerCase hexColor) = getContrastingTextColor hexColor.
Proof.
  unfold getContrastingTextColor, notHexColor, contrastOf.
  rewrite length_asciiLowerCase, !slice_asciiLowerCase, !parseInt16_asciiLowerCase.
  replace (String.eqb (asciiLowerCase hexColor) "") with (String.eqb hexColor "")
    by (destruct hexColor; reflexivity).
  replace (String.get 0 (asciiLowerCase hexColor))
    with (option_map asciiLowerChar (String.get 0 hexColor))
    by (destruct hexColor; reflexivity).
  destruct (String.get 0 hexColor) as [c|]; cbn [option_map];
    [rewrite hash_asciiLowerChar|]; reflexivity.
Qed.

End ContrastCase.
